(** * minifuture: the position-sizing calculator [mini.go]

    [mini.go] is a command-line calculator: it reads five [float64] flags
    ([price], [risk], [stop], [financeLevel], [derivatePrice]), computes six
    figures with plain floating-point arithmetic and prints each of them
    with [fmt.Printf] and the verb [%f].

    The development has three layers.

    - [Arith]: the arithmetic the program text is written in.  Go evaluates
      it on IEEE-754 binary64 values, which is the instance [Float64]
      (built on the Standard Library's executable specification of binary
      floating point, [SpecFloat], with [prec = 53] and [emax = 1024]).  The
      instance [Exact] reads the same program text over the rationals; it is
      the "exact arithmetic" the specification talks about.
      Every operation is rounded on its own, in the order the expression
      is written (no fused multiply-add), as the Go compiler does on amd64
      by default.
    - [Mini]: the program, statement by statement.
    - [Engine]: the selection engine of the specification (take-profit
      calculator, filter, ranker, sizer, shortlist).  That code is not part
      of [mini.go]; it is modelled from the specification's words and is
      used to state what the specification promises.

    [Fmt] renders a [float64] as the verb [%f] does, so that a statement
    can quote the text the program prints. *)

From Stdlib Require Import ZArith QArith Qcanon List Ascii String Bool Lia.
From Stdlib Require Import Floats.SpecFloat.
From Stdlib Require DecimalString.
Import ListNotations.

Set Implicit Arguments.

(** ** The arithmetic of the program text *)

(** The operators that occur in [mini.go], together with the order test the
    specification's engine needs and the conversion of an untyped Go
    constant.  An untyped constant such as [8.34] is an exact rational in
    Go; it becomes a value of the operand type when it meets one. *)
Class Arith (A : Type) : Type := {
  fadd : A -> A -> A;
  fsub : A -> A -> A;
  fmul : A -> A -> A;
  fdiv : A -> A -> A;
  fltb : A -> A -> bool;
  const : Q -> A
}.

Declare Scope go_scope.
Delimit Scope go_scope with go.
Infix "+" := fadd : go_scope.
Infix "-" := fsub : go_scope.
Infix "*" := fmul : go_scope.
Infix "/" := fdiv : go_scope.
Infix "<?" := fltb : go_scope.

(** ** IEEE-754 binary64, the [float64] of Go *)

Module Float64.

Local Open Scope Z_scope.

Definition prec : Z := 53.
Definition emax : Z := 1024.

Definition float64 : Type := spec_float.

Definition add : float64 -> float64 -> float64 := SFadd prec emax.
Definition sub : float64 -> float64 -> float64 := SFsub prec emax.
Definition mul : float64 -> float64 -> float64 := SFmul prec emax.
Definition div : float64 -> float64 -> float64 := SFdiv prec emax.
Definition ltb : float64 -> float64 -> bool := SFltb.
Definition leb : float64 -> float64 -> bool := SFleb.
Definition eqb : float64 -> float64 -> bool := SFeqb.

(** The integer [n] as a [float64] (rounded to nearest even). *)
Definition of_Z (n : Z) : float64 := binary_normalize prec emax n 0 false.

(** Conversion of an untyped constant: the quotient of numerator and
    denominator, rounded once.  Both are exactly representable for every
    constant of the program ([2], [100], [834/100]), so the result is the
    [float64] nearest to the constant, as the Go compiler produces it. *)
Definition of_Q (q : Q) : float64 :=
  div (of_Z (Qnum q)) (of_Z (Zpos (Qden q))).

Definition valid (x : float64) : bool := valid_binary prec emax x.

Definition is_nan (x : float64) : bool :=
  match x with S754_nan => true | _ => false end.

Definition is_inf (x : float64) : bool :=
  match x with S754_infinity _ => true | _ => false end.

Definition is_zero (x : float64) : bool :=
  match x with S754_zero _ => true | _ => false end.

(** The sign bit of a value that has one. *)
Definition signbit (x : float64) : bool :=
  match x with
  | S754_zero s | S754_infinity s | S754_finite s _ _ => s
  | S754_nan => false
  end.

Definition inf_or_nan (x : float64) : bool := is_inf x || is_nan x.

(** A value that is not NaN and carries the sign [s]. *)
Definition signed (s : bool) (x : float64) : Prop :=
  is_nan x = false /\ signbit x = s.

(** The signed mantissa of a finite value once it is aligned on the
    exponent [e'], as addition and subtraction align their operands. *)
Definition aligned (s : bool) (m : positive) (e e' : Z) : Z :=
  cond_Zopp s (Zpos (fst (shl_align m e e'))).

(** An order-preserving image of the values that are not NaN: a finite
    value counted in units of [2^-1074], the infinities beyond every
    finite value. *)
Definition ord (x : float64) : Z :=
  match x with
  | S754_zero _ | S754_nan => 0
  | S754_infinity false => 2 ^ 3000
  | S754_infinity true => - 2 ^ 3000
  | S754_finite s m e => cond_Zopp s (Zpos m * 2 ^ (e + 1074))
  end.

End Float64.

#[export] Instance Float64_Arith : Arith Float64.float64 := {
  fadd := Float64.add;
  fsub := Float64.sub;
  fmul := Float64.mul;
  fdiv := Float64.div;
  fltb := Float64.ltb;
  const := Float64.of_Q
}.

(** ** Exact arithmetic *)

Module Exact.

(** The strict order of the rationals as a test. *)
Definition less (x y : Qc) : bool := negb (Qle_bool y x).

End Exact.

#[export] Instance Exact_Arith : Arith Qc := {
  fadd := Qcplus;
  fsub := Qcminus;
  fmul := Qcmult;
  fdiv := Qcdiv;
  fltb := Exact.less;
  const := Q2Qc
}.

(** ** The program [mini.go] *)

Module Mini.

Section Program.

Context {A : Type} {arith : Arith A}.

Local Open Scope go_scope.
Local Open Scope string_scope.

(** The five command-line flags, after [flag.Parse()].  Each defaults
    to [0] when it is not given. *)
Record Flags : Type := {
  price : A;
  risk : A;
  stop : A;
  financeLevel : A;
  derivatePrice : A
}.

(** One [fmt.Printf] call: its format string (written as in the source,
    the two characters [\n] standing for the newline) and the value
    substituted for [%f]. *)
Record Printed : Type := {
  format : string;
  arg : A
}.

(** Standard output: the calls made so far, oldest first. *)
Definition Stdout : Type := list Printed.

Definition Printf (out : Stdout) (fmt : string) (v : A) : Stdout :=
  (out ++ [ {| format := fmt; arg := v |} ])%list.

(** The body of [main], one [let] per statement. *)
Definition main (f : Flags) : Stdout :=
  let out : Stdout := [] in
  let numberOfStocks := risk f / (price f - stop f) in
  let out := Printf out "Stock> Number of stocks: %f\n" numberOfStocks in
  let takeProfit := price f + const 2 * (price f - stop f) in
  let out := Printf out "Stock> Take profit: %f\n" takeProfit in
  let paritet := (price f - financeLevel f) / const 100 * const 8.34 in
  let out := Printf out "Mini> Leverage: %f\n" paritet in
  let miniStop := (stop f - financeLevel f) / const 100 * const 8.34 in
  let out := Printf out "Mini> Stop: %f\n" miniStop in
  let howMany := risk f / (derivatePrice f - miniStop) in
  let out := Printf out "Mini> How many can I buy: %f\n" howMany in
  let miniProfit :=
    (((takeProfit - financeLevel f) / const 100 * const 8.34) * howMany)
    - (derivatePrice f * howMany) in
  let out := Printf out "Mini> Profit: %f\n" miniProfit in
  out.

(** The six local variables of [main] as functions of the flags. *)
Definition numberOfStocks (f : Flags) : A :=
  risk f / (price f - stop f).

Definition takeProfit (f : Flags) : A :=
  price f + const 2 * (price f - stop f).

Definition paritet (f : Flags) : A :=
  (price f - financeLevel f) / const 100 * const 8.34.

Definition miniStop (f : Flags) : A :=
  (stop f - financeLevel f) / const 100 * const 8.34.

Definition howMany (f : Flags) : A :=
  risk f / (derivatePrice f - miniStop f).

Definition miniProfit (f : Flags) : A :=
  (((takeProfit f - financeLevel f) / const 100 * const 8.34) * howMany f)
  - (derivatePrice f * howMany f).

(** The values printed, in the order they are printed. *)
Definition printed_values (out : Stdout) : list A := map arg out.

End Program.

Arguments Flags A : clear implicits.
Arguments Printed A : clear implicits.
Arguments Stdout A : clear implicits.

End Mini.

(** ** The selection engine of the specification *)

Module Engine.

(** Modelled from the spec: the two directions of a plan and the two sides
    of an instrument, section 3 (the engine is not in [mini.go]). *)
Inductive Direction : Type := Long | Short.

(** Modelled from the spec: the error kinds of section 7 (not in
    [mini.go], which has no error of any kind). *)
Inductive EngineError : Type :=
| InvalidParameters
| DegenerateSizing
| NoCandidates.

(** Modelled from the spec: the [Result<_, EngineError>] of section 6 (not
    in [mini.go]). *)
Inductive Result (T : Type) : Type :=
| Ok (v : T)
| Err (e : EngineError).

Arguments Ok {T} v.
Arguments Err {T} e.

(** Modelled from the spec: agreement of an instrument's side with the
    direction of the plan, section 4.2 (not in [mini.go]). *)
Definition Direction_eqb (a b : Direction) : bool :=
  match a, b with
  | Long, Long | Short, Short => true
  | _, _ => false
  end.

Section Engine.

Context {A : Type} {arith : Arith A}.

Local Open Scope go_scope.

(** Modelled from the spec: the RiskProfile of section 3 (the engine's
    data model is not in [mini.go]). *)
Record RiskProfile : Type := {
  entryPrice : A;
  underlyingName : string;
  riskAmount : A;
  stopPrice : A;
  rewardRiskRatio : A
}.

(** Modelled from the spec: the Instrument of section 3 (not in
    [mini.go]). *)
Record Instrument : Type := {
  identifier : string;
  instrumentUnderlying : string;
  side : Direction;
  financeLevel : A;
  parityOrMultiplier : A;
  lastPrice : A
}.

(** Modelled from the spec: the tests [==], [> 0] and the absolute value
    the specification uses on decimals (not in [mini.go]), from the order
    test of the arithmetic. *)
Definition feqb (x y : A) : bool := negb (x <? y) && negb (y <? x).

Definition positive (x : A) : bool := const 0 <? x.

Definition fabs (x : A) : A := if x <? const 0 then const 0 - x else x.

(** Modelled from the spec: the direction of section 3,
    [Long if entryPrice > stopPrice else Short]. *)
Definition directionOf (entry stop : A) : Direction :=
  if stop <? entry then Long else Short.

(** Modelled from the spec: the take-profit price of section 4.1, in the
    two expanded forms the specification gives. *)
Definition takeProfitPrice (entry stop rr : A) : A :=
  match directionOf entry stop with
  | Long => entry + rr * (entry - stop)
  | Short => entry - rr * (stop - entry)
  end.

(** Modelled from the spec: the TakeProfitCalculator of section 4.1 with
    its [InvalidParameters] failure (not in [mini.go]). *)
Definition takeProfitCalculator (entry stop rr : A)
  : Result (A * Direction) :=
  if feqb entry stop || negb (positive rr) then Err InvalidParameters
  else Ok (takeProfitPrice entry stop rr, directionOf entry stop).

(** Modelled from the spec: the rule of the InstrumentFilter of section
    4.2 (not in [mini.go]). *)
Definition compatible (d : Direction) (stop : A) (i : Instrument) : bool :=
  Direction_eqb (side i) d
  && match d with
     | Long => financeLevel i <? stop
     | Short => stop <? financeLevel i
     end.

(** Modelled from the spec: the InstrumentFilter of section 4.2, a sub-list
    of its input (not in [mini.go]). *)
Definition instrumentFilter (d : Direction) (stop : A)
  (l : list Instrument) : list Instrument :=
  filter (compatible d stop) l.

(** Modelled from the spec: the four derived figures of the
    PositionSizer of section 4.4 (not in [mini.go]), the Short forms
    mirrored as the specification says. *)
Definition leverage (d : Direction) (entry : A) (i : Instrument) : A :=
  match d with
  | Long => (entry - financeLevel i) / const 100 * parityOrMultiplier i
  | Short => (financeLevel i - entry) / const 100 * parityOrMultiplier i
  end.

(** Modelled from the spec: [stopInInstrumentTerms] of section 4.4 (not in
    [mini.go]). *)
Definition stopInInstrumentTerms (d : Direction) (stop : A)
  (i : Instrument) : A :=
  match d with
  | Long => (stop - financeLevel i) / const 100 * parityOrMultiplier i
  | Short => (financeLevel i - stop) / const 100 * parityOrMultiplier i
  end.

(** Modelled from the spec: [unitsAffordable] of section 4.4 with its
    [DegenerateSizing] failure on a denominator that is not positive (not
    in [mini.go]). *)
Definition unitsAffordable (d : Direction) (riskAmt stop : A)
  (i : Instrument) : Result A :=
  let denominator := lastPrice i - stopInInstrumentTerms d stop i in
  if positive denominator then Ok (riskAmt / denominator)
  else Err DegenerateSizing.

(** Modelled from the spec: [projectedProfit] of section 4.4 (not in
    [mini.go]). *)
Definition projectedProfit (d : Direction) (takeProfit : A)
  (i : Instrument) (units : A) : A :=
  match d with
  | Long =>
      ((takeProfit - financeLevel i) / const 100 * parityOrMultiplier i)
      * units - lastPrice i * units
  | Short =>
      ((financeLevel i - takeProfit) / const 100 * parityOrMultiplier i)
      * units - lastPrice i * units
  end.

(** Modelled from the spec: the sizing result of section 4.4, one row of
    the report of section 6 (not in [mini.go]). *)
Record Sizing : Type := {
  instrument : Instrument;
  sizedLeverage : A;
  sizedStop : A;
  sizedUnits : A;
  sizedProfit : A
}.

(** Modelled from the spec: the PositionSizer of section 4.4 applied to one
    instrument (not in [mini.go]). *)
Definition positionSizer (p : RiskProfile) (d : Direction)
  (takeProfit : A) (i : Instrument) : Result Sizing :=
  match unitsAffordable d (riskAmount p) (stopPrice p) i with
  | Err e => Err e
  | Ok units =>
      Ok {| instrument := i;
            sizedLeverage := leverage d (entryPrice p) i;
            sizedStop := stopInInstrumentTerms d (stopPrice p) i;
            sizedUnits := units;
            sizedProfit := projectedProfit d takeProfit i units |}
  end.

(** Modelled from the spec: the Ranker of section 4.3 (not in
    [mini.go]): ascending distance of the knock-out to the stop, then
    descending leverage, ties in input order. *)
Definition distance (stop : A) (i : Instrument) : A :=
  fabs (financeLevel i - stop).

(** Modelled from the spec: the two ranking keys of section 4.3 (not in
    [mini.go]): [a] is strictly before [b]. *)
Definition ranksBefore (d : Direction) (entry stop : A)
  (a b : Instrument) : bool :=
  (distance stop a <? distance stop b)
  || (feqb (distance stop a) (distance stop b)
      && (leverage d entry b <? leverage d entry a)).

(** Modelled from the spec: the stable sort of section 4.3 (not in
    [mini.go]), by insertion: [x], earlier in the input than the elements of
    [l], goes before the first one that is not strictly before it. *)
Fixpoint insertRanked (d : Direction) (entry stop : A) (x : Instrument)
  (l : list Instrument) : list Instrument :=
  match l with
  | [] => [x]
  | y :: l' =>
      if ranksBefore d entry stop y x
      then y :: insertRanked d entry stop x l'
      else x :: y :: l'
  end.

(** Modelled from the spec: the ordered list of section 4.3 (not in
    [mini.go]). *)
Definition ranker (d : Direction) (entry stop : A)
  (l : list Instrument) : list Instrument :=
  fold_right (insertRanked d entry stop) [] l.

(** Modelled from the spec: the policy of section 7 (not in [mini.go]): a
    [DegenerateSizing] instrument is skipped, the others are kept in
    order. *)
Definition sizeAll (p : RiskProfile) (d : Direction) (takeProfit : A)
  (l : list Instrument) : list Sizing :=
  flat_map (fun i => match positionSizer p d takeProfit i with
                     | Ok s => [s]
                     | Err _ => []
                     end) l.

(** Modelled from the spec: the ShortlistSelector of section 4.5 (not in
    [mini.go]). *)
Definition shortlistSelector (topN : nat) (l : list Sizing)
  : Result (list Sizing) :=
  match l with
  | [] => Err NoCandidates
  | _ :: _ => Ok (firstn topN l)
  end.

(** Modelled from the spec: the [ShortlistReport] of section 6 (not in
    [mini.go]). *)
Record ShortlistReport : Type := {
  reportTakeProfit : A;
  reportDirection : Direction;
  rows : list Sizing
}.

(** Modelled from the spec: the operation [select] of section 6 (not in
    [mini.go]): validation, take-profit, filter, ranker, sizer,
    shortlist. *)
Definition select (p : RiskProfile) (instruments : list Instrument)
  (topN : nat) : Result ShortlistReport :=
  if negb (positive (riskAmount p)) then Err InvalidParameters
  else
    match takeProfitCalculator (entryPrice p) (stopPrice p)
            (rewardRiskRatio p) with
    | Err e => Err e
    | Ok (takeProfit, d) =>
        let survivors := instrumentFilter d (stopPrice p) instruments in
        let ranked := ranker d (entryPrice p) (stopPrice p) survivors in
        let sized := sizeAll p d takeProfit ranked in
        match shortlistSelector topN sized with
        | Err e => Err e
        | Ok shortlist =>
            Ok {| reportTakeProfit := takeProfit;
                  reportDirection := d;
                  rows := shortlist |}
        end
    end.

End Engine.

Arguments RiskProfile A : clear implicits.
Arguments Instrument A : clear implicits.
Arguments Sizing A : clear implicits.
Arguments ShortlistReport A : clear implicits.

End Engine.

(** ** The calculator as a computation of the engine's kind *)

Section Invocation.

Context {A : Type} {arith : Arith A}.

(** The flags with which the calculator is run for a plan and one
    instrument.  It has no flag for the reward:risk ratio, for the parity
    or for the side: these three fields have no way into the program. *)
Definition invocation (p : Engine.RiskProfile A) (i : Engine.Instrument A)
  : Mini.Flags A :=
  {| Mini.price := Engine.entryPrice p;
     Mini.risk := Engine.riskAmount p;
     Mini.stop := Engine.stopPrice p;
     Mini.financeLevel := Engine.financeLevel i;
     Mini.derivatePrice := Engine.lastPrice i |}.

(** [main] has no [return], no [os.Exit] and no panic on its path (a
    [float64] division does not panic in Go): whatever the flags, its
    outcome is the text it has printed. *)
Definition run (f : Mini.Flags A) : Engine.Result (Mini.Stdout A) :=
  Engine.Ok (Mini.main f).

End Invocation.

(** ** What [fmt.Printf] writes for [%f] *)

Module Fmt.

Import Float64.

Local Open Scope Z_scope.
Local Open Scope string_scope.

(** Nearest integer to [n / d] for [n >= 0] and [d > 0], a tie going to
    the even neighbour: the rounding of [strconv] at a fixed number of
    decimals. *)
Definition round_half_even (n d : Z) : Z :=
  let q := n / d in
  let r := n mod d in
  match 2 * r ?= d with
  | Lt => q
  | Gt => q + 1
  | Eq => if Z.even q then q else q + 1
  end.

(** [|x| * 10^6] rounded to an integer, for a finite [x]. *)
Definition micros (x : float64) : Z :=
  match x with
  | S754_finite _ m e =>
      match e with
      | Zneg p => round_half_even (Zpos m * 10 ^ 6) (2 ^ Zpos p)
      | _ => Zpos m * 2 ^ e * 10 ^ 6
      end
  | _ => 0
  end.

Definition digits (n : Z) : string :=
  DecimalString.NilZero.string_of_uint (N.to_uint (Z.to_N n)).

(** The six decimals of [n] micro-units, zero-padded on the left. *)
Definition decimals6 (n : Z) : string :=
  match digits (10 ^ 6 + n mod 10 ^ 6) with
  | String _ s => s
  | EmptyString => EmptyString
  end.

(** The verb [%f] (six decimals) applied to a [float64]. *)
Definition format_f (x : float64) : string :=
  match x with
  | S754_nan => "NaN"
  | S754_infinity false => "+Inf"
  | S754_infinity true => "-Inf"
  | S754_zero s | S754_finite s _ _ =>
      let n := micros x in
      (if s then "-" else "") ++ digits (n / 10 ^ 6) ++ "." ++ decimals6 n
  end.

Definition newline : string := String (Ascii.ascii_of_nat 10) EmptyString.

(** A format string with its verb replaced by [v] and [\n] by the
    newline. *)
Fixpoint expand (fmt : string) (v : string) : string :=
  match fmt with
  | String "%"%char (String "f"%char rest) => v ++ expand rest v
  | String "\"%char (String "n"%char rest) => newline ++ expand rest v
  | String c rest => String c (expand rest v)
  | EmptyString => EmptyString
  end.

(** The text on standard output, one entry per [Printf] call (each ends
    with the newline). *)
Definition text (out : Mini.Stdout float64) : list string :=
  map (fun p => expand (Mini.format p) (format_f (Mini.arg p))) out.

(** The values [main] prints, as [%f] writes them. *)
Definition shown (f : Mini.Flags float64) : list string :=
  map format_f (Mini.printed_values (Mini.main f)).

End Fmt.

(** ** Concrete plans, instruments and command lines *)

Module Scenario.

Section Scenario.

Context {A : Type} {arith : Arith A}.

Local Open Scope string_scope.

(** The flags of a command line, each given as a decimal. *)
Definition flags (price risk stop financeLevel derivatePrice : Q)
  : Mini.Flags A :=
  {| Mini.price := const price;
     Mini.risk := const risk;
     Mini.stop := const stop;
     Mini.financeLevel := const financeLevel;
     Mini.derivatePrice := const derivatePrice |}.

Definition profile (entry riskAmt stop rr : Q) : Engine.RiskProfile A :=
  {| Engine.entryPrice := const entry;
     Engine.underlyingName := "ERIC B";
     Engine.riskAmount := const riskAmt;
     Engine.stopPrice := const stop;
     Engine.rewardRiskRatio := const rr |}.

Definition instrument (id : string) (s : Engine.Direction)
  (financeLevel parity lastPrice : Q) : Engine.Instrument A :=
  {| Engine.identifier := id;
     Engine.instrumentUnderlying := "ERIC B";
     Engine.side := s;
     Engine.financeLevel := const financeLevel;
     Engine.parityOrMultiplier := const parity;
     Engine.lastPrice := const lastPrice |}.

(** An instrument with its parity replaced by the constant of the
    program. *)
Definition withProgramParity (i : Engine.Instrument A)
  : Engine.Instrument A :=
  {| Engine.identifier := Engine.identifier i;
     Engine.instrumentUnderlying := Engine.instrumentUnderlying i;
     Engine.side := Engine.side i;
     Engine.financeLevel := Engine.financeLevel i;
     Engine.parityOrMultiplier := const 8.34;
     Engine.lastPrice := Engine.lastPrice i |}.

End Scenario.

Arguments flags {A arith} (price risk stop financeLevel derivatePrice)%_Q.
Arguments profile {A arith} (entry riskAmt stop rr)%_Q.
Arguments instrument {A arith} id%_string s (financeLevel parity lastPrice)%_Q.

(** The scenario of the specification: entry 100.50, risk 1000, stop 95,
    knock-out 90, last price 10; over the rationals and as the program
    receives it. *)
Definition scenarioExact : Mini.Flags Qc := flags 100.5 1000 95 90 10.

Definition scenarioFloat : Mini.Flags Float64.float64 :=
  flags 100.5 1000 95 90 10.

End Scenario.

(** ** Quantities and variations of the command line used in statements *)

Module Derived.

Section Derived.

Context {A : Type} {arith : Arith A}.

Local Open Scope go_scope.

(** The same command line with another value for [-risk]. *)
Definition withRisk (r : A) (f : Mini.Flags A) : Mini.Flags A :=
  {| Mini.price := Mini.price f;
     Mini.risk := r;
     Mini.stop := Mini.stop f;
     Mini.financeLevel := Mini.financeLevel f;
     Mini.derivatePrice := Mini.derivatePrice f |}.

(** The same command line with the values of [-price] and [-stop]
    exchanged. *)
Definition swapped (f : Mini.Flags A) : Mini.Flags A :=
  {| Mini.price := Mini.stop f;
     Mini.risk := Mini.risk f;
     Mini.stop := Mini.price f;
     Mini.financeLevel := Mini.financeLevel f;
     Mini.derivatePrice := Mini.derivatePrice f |}.

End Derived.

(** A [float64] that is finite and not zero. *)
Definition finite_nonzero (x : Float64.float64) : bool :=
  match x with S754_finite _ _ _ => true | _ => false end.

(** A [float64] that is finite and above zero. *)
Definition finite_positive (x : Float64.float64) : bool :=
  match x with S754_finite false _ _ => true | _ => false end.

End Derived.

Unset Implicit Arguments.

(** * Facts about binary64 arithmetic *)

Module Float64Facts.

Import Float64.

Local Open Scope Z_scope.

(** ** Division by zero and by NaN *)

Lemma div_zero_denominator (x y : float64) :
  is_zero y = true -> inf_or_nan (div x y) = true.
Proof. destruct x, y; simpl; intros H; try discriminate H; reflexivity. Qed.

Lemma div_nan_denominator (x y : float64) :
  is_nan y = true -> inf_or_nan (div x y) = true.
Proof. destruct x, y; simpl; intros H; try discriminate H; reflexivity. Qed.

Lemma compare_eq_finite s1 m1 e1 s2 m2 e2 :
  SFcompare (S754_finite s1 m1 e1) (S754_finite s2 m2 e2) = Some Eq ->
  s1 = s2 /\ m1 = m2 /\ e1 = e2.
Proof.
  simpl. destruct s1, s2; try discriminate;
    destruct (Z.compare_spec e1 e2) as [He | He | He]; try discriminate;
    rewrite Pos.compare_cont_spec; simpl;
    destruct (Pos.compare_spec m1 m2) as [Hm | Hm | Hm]; try discriminate;
    intros _; subst; auto.
Qed.

Lemma shl_align_same m e : shl_align m e (Z.min e e) = (m, e).
Proof. unfold shl_align. rewrite Z.min_id, Z.sub_diag. reflexivity. Qed.

Lemma sub_equal (x y : float64) :
  eqb x y = true -> is_zero (sub x y) || is_nan (sub x y) = true.
Proof.
  unfold eqb, SFeqb.
  destruct (SFcompare x y) as [[ | | ] | ] eqn:Hc; try discriminate.
  intros _.
  destruct x as [sx | sx | | sx mx ex], y as [sy | sy | | sy my ey];
    try discriminate Hc;
    try (destruct sx, sy; try discriminate Hc; reflexivity);
    try (destruct sx; discriminate Hc); try (destruct sy; discriminate Hc).
  apply compare_eq_finite in Hc. destruct Hc as (-> & -> & ->).
  unfold sub, SFsub. rewrite shl_align_same. simpl fst.
  rewrite Z.sub_diag. reflexivity.
Qed.

(** ** Negation commutes with the operations *)

Lemma opp_involutive x : SFopp (SFopp x) = x.
Proof. destruct x; simpl; rewrite ?negb_involutive; reflexivity. Qed.

Lemma binary_round_aux_opp s m e l :
  binary_round_aux prec emax (negb s) m e l
  = SFopp (binary_round_aux prec emax s m e l).
Proof.
  unfold binary_round_aux.
  destruct (shr_fexp prec emax m e l) as [mrs' e'].
  destruct (shr_fexp prec emax _ e' loc_Exact) as [mrs'' e''].
  destruct (shr_m mrs''); try reflexivity.
  destruct (Z.leb e'' (emax - prec)); reflexivity.
Qed.

Lemma binary_round_opp s m e :
  binary_round prec emax (negb s) m e = SFopp (binary_round prec emax s m e).
Proof.
  unfold binary_round.
  destruct (shl_align m e _) as [mz ez]. apply binary_round_aux_opp.
Qed.

Lemma binary_normalize_opp m e :
  m <> 0 ->
  binary_normalize prec emax (- m) e false
  = SFopp (binary_normalize prec emax m e false).
Proof.
  destruct m as [ | p | p ]; intros Hm; [ contradiction | | ]; simpl.
  - apply (binary_round_opp false).
  - apply (binary_round_opp true).
Qed.

Lemma cond_Zopp_negb s m : cond_Zopp (negb s) m = - cond_Zopp s m.
Proof. destruct s; simpl; lia. Qed.

Lemma sub_add_opp x y : sub x y = add x (SFopp y).
Proof.
  destruct x as [sx | sx | | sx mx ex], y as [sy | sy | | sy my ey];
    try reflexivity;
    destruct sx, sy; reflexivity.
Qed.

Lemma mul_opp_r x y : mul x (SFopp y) = SFopp (mul x y).
Proof.
  destruct x as [sx | sx | | sx mx ex], y as [sy | sy | | sy my ey];
    try reflexivity;
    try (destruct sx, sy; reflexivity).
  unfold mul, SFmul. cbn [SFopp].
  rewrite <- binary_round_aux_opp. f_equal. destruct sx, sy; reflexivity.
Qed.

(** ** The sign of a rounded result *)

(** Non-negative mantissas stay non-negative through the rounding
    shifts. *)
Lemma shr_1_nonneg mrs : 0 <= shr_m mrs -> 0 <= shr_m (shr_1 mrs).
Proof.
  destruct mrs as [m r s]; simpl.
  destruct m as [ | [ p | p | ] | p ]; simpl; lia.
Qed.

Lemma iter_shr_1_nonneg p : forall mrs,
  0 <= shr_m mrs -> 0 <= shr_m (iter_pos shr_1 p mrs).
Proof.
  induction p as [ p IH | p IH | ]; intros mrs H; simpl.
  - apply IH, IH, shr_1_nonneg, H.
  - apply IH, IH, H.
  - apply shr_1_nonneg, H.
Qed.

Lemma shr_fexp_nonneg m e l :
  0 <= m -> 0 <= shr_m (fst (shr_fexp prec emax m e l)).
Proof.
  intros H. unfold shr_fexp, shr.
  assert (H0 : 0 <= shr_m (shr_record_of_loc m l))
    by (destruct l as [ | [ | | ] ]; exact H).
  destruct (fexp prec emax (Zdigits2 m + e) - e); simpl; auto.
  apply iter_shr_1_nonneg, H0.
Qed.

Lemma round_nearest_even_nonneg m l :
  0 <= m -> 0 <= round_nearest_even m l.
Proof.
  intros H. destruct l as [ | [ | | ] ]; simpl; try lia.
  destruct (Z.even m); lia.
Qed.

Lemma binary_round_aux_signed s m e l :
  0 <= m -> signed s (binary_round_aux prec emax s m e l).
Proof.
  intros H. unfold binary_round_aux.
  pose proof (shr_fexp_nonneg m e l H) as H1.
  destruct (shr_fexp prec emax m e l) as [mrs' e']. simpl in H1.
  pose proof (round_nearest_even_nonneg _ (loc_of_shr_record mrs') H1) as Hr.
  pose proof (shr_fexp_nonneg _ e' loc_Exact Hr) as H2.
  destruct (shr_fexp prec emax _ e' loc_Exact) as [mrs'' e'']. simpl in H2.
  destruct (shr_m mrs'') as [ | p | p ]; [ split; reflexivity | | lia ].
  destruct (Z.leb e'' (emax - prec)); split; reflexivity.
Qed.

Lemma binary_round_signed s m e : signed s (binary_round prec emax s m e).
Proof.
  unfold binary_round. destruct (shl_align m e _) as [mz ez].
  apply binary_round_aux_signed. lia.
Qed.

Lemma mul_signed sx sy x my ey :
  signed sx x ->
  signed (xorb sx sy) (mul x (S754_finite sy my ey)).
Proof.
  intros [Hn Hs]. destruct x as [s | s | | s mx ex]; try discriminate Hn;
    simpl in Hs; subst; try (split; reflexivity).
  apply binary_round_aux_signed. lia.
Qed.

Lemma div_signed sx sy x my ey :
  signed sx x ->
  signed (xorb sx sy) (div x (S754_finite sy my ey)).
Proof.
  intros [Hn Hs]. destruct x as [s | s | | s mx ex]; try discriminate Hn;
    simpl in Hs; subst; try (split; reflexivity).
  unfold div, SFdiv.
  destruct (SFdiv_core_binary prec emax (Z.pos mx) ex (Z.pos my) ey)
    as [[mz ez] lz] eqn:Hd.
  apply binary_round_aux_signed.
  unfold SFdiv_core_binary in Hd.
  match type of Hd with
  | (let '(q, r) := Z.div_eucl ?shifted _ in _) = _ => set (m' := shifted) in *
  end.
  assert (Hm' : 0 <= m').
  { subst m'. destruct (ex - ey - _); try lia. apply Z.shiftl_nonneg. lia. }
  pose proof (Z_div_mod m' (Z.pos my) ltac:(lia)) as Hdm.
  destruct (Z.div_eucl m' (Z.pos my)) as [q r].
  injection Hd as <- _ _.
  destruct Hdm as [Heq Hr]. nia.
Qed.

(** ** The order of valid values *)

(** A mantissa of [d] binary digits lies between [2^(d-1)] and [2^d]. *)
Lemma digits2_pos_bounds m :
  2 ^ (Zpos (digits2_pos m) - 1) <= Zpos m < 2 ^ Zpos (digits2_pos m).
Proof.
  induction m as [ p IH | p IH | ]; simpl digits2_pos.
  - rewrite Pos2Z.inj_succ, Z.pow_succ_r by lia.
    replace (Z.succ (Zpos (digits2_pos p)) - 1)
      with (Z.succ (Zpos (digits2_pos p) - 1)) by lia.
    rewrite Z.pow_succ_r by lia. lia.
  - rewrite Pos2Z.inj_succ, Z.pow_succ_r by lia.
    replace (Z.succ (Zpos (digits2_pos p)) - 1)
      with (Z.succ (Zpos (digits2_pos p) - 1)) by lia.
    rewrite Z.pow_succ_r by lia. lia.
  - simpl. lia.
Qed.

(** A valid finite value has its exponent at least [-1074] and at most 53
    digits, exactly 53 above the smallest exponent. *)
Lemma bounded_canonical m e :
  bounded prec emax m e = true ->
  -1074 <= e /\ Zpos (digits2_pos m) <= 53
  /\ (-1074 < e -> Zpos (digits2_pos m) = 53).
Proof.
  unfold bounded, canonical_mantissa, fexp, emin, prec, emax.
  intros H. apply andb_prop in H. destruct H as [H _].
  apply Z.eqb_eq in H. lia.
Qed.

Lemma shl_align_value m e e' :
  e' <= e -> Zpos (fst (shl_align m e e')) = Zpos m * 2 ^ (e - e').
Proof.
  intros H. unfold shl_align.
  destruct (e' - e) as [ | d | d ] eqn:Hd; try lia; simpl fst.
  - replace (e - e') with 0 by lia. lia.
  - replace (e - e') with (Zpos d) by lia.
    change (Pos.iter xO m d) with (shift_pos d m).
    rewrite shift_pos_correct, Zpower_pos_nat, Zpower_nat_Z, positive_nat_Z.
    lia.
Qed.

(** Of two valid mantissas, the one with the smaller exponent is the
    smaller once both are aligned. *)
Lemma small_below_large mx ex my ey :
  bounded prec emax mx ex = true -> bounded prec emax my ey = true ->
  ex < ey -> Zpos mx < Zpos my * 2 ^ (ey - ex).
Proof.
  intros Hx Hy Hlt.
  apply bounded_canonical in Hx, Hy.
  destruct Hx as (Hex & Hdx & _), Hy as (_ & _ & Hdy).
  specialize (Hdy ltac:(lia)).
  pose proof (digits2_pos_bounds mx) as [_ Hmx].
  pose proof (digits2_pos_bounds my) as [Hmy _].
  rewrite Hdy in Hmy.
  assert (H1 : 2 ^ Zpos (digits2_pos mx) <= 2 ^ 53)
    by (apply Z.pow_le_mono_r; lia).
  assert (H2 : 2 ^ 1 <= 2 ^ (ey - ex)) by (apply Z.pow_le_mono_r; lia).
  change (2 ^ 53) with (2 ^ 52 * 2) in H1. change (2 ^ 1) with 2 in H2.
  change (53 - 1) with 52 in Hmy.
  nia.
Qed.

(** Comparison of valid finite values is the comparison of their aligned
    mantissas. *)
Lemma compare_aligned sx mx ex sy my ey :
  bounded prec emax mx ex = true -> bounded prec emax my ey = true ->
  SFcompare (S754_finite sx mx ex) (S754_finite sy my ey)
  = Some (aligned sx mx ex (Z.min ex ey) ?= aligned sy my ey (Z.min ex ey)).
Proof.
  intros Hx Hy. unfold aligned.
  rewrite !shl_align_value by lia.
  assert (Hpx : 0 < Zpos mx * 2 ^ (ex - Z.min ex ey))
    by (apply Z.mul_pos_pos; [ lia | apply Z.pow_pos_nonneg; lia ]).
  assert (Hpy : 0 < Zpos my * 2 ^ (ey - Z.min ex ey))
    by (apply Z.mul_pos_pos; [ lia | apply Z.pow_pos_nonneg; lia ]).
  simpl SFcompare. f_equal.
  destruct (Z.compare_spec ex ey) as [He | He | He].
  - subst ey. rewrite Z.min_id, Z.sub_diag in *. rewrite !Z.mul_1_r.
    rewrite Pos.compare_cont_spec. simpl Pos.switch_Eq.
    destruct sx, sy; simpl cond_Zopp; try reflexivity;
      destruct (mx ?= my)%positive eqn:Hm; simpl; rewrite ?Hm; reflexivity.
  - rewrite Z.min_l in * by lia. rewrite Z.sub_diag in *.
    change (2 ^ 0) with 1 in *. rewrite Z.mul_1_r in *.
    pose proof (small_below_large _ _ _ _ Hx Hy He) as Hlt.
    destruct sx, sy; unfold cond_Zopp; cbv beta iota; symmetry;
      first [ rewrite Z.compare_lt_iff | rewrite Z.compare_gt_iff ]; lia.
  - rewrite Z.min_r in * by lia. rewrite Z.sub_diag in *.
    change (2 ^ 0) with 1 in *. rewrite Z.mul_1_r in *.
    pose proof (small_below_large _ _ _ _ Hy Hx He) as Hlt.
    destruct sx, sy; unfold cond_Zopp; cbv beta iota; symmetry;
      first [ rewrite Z.compare_lt_iff | rewrite Z.compare_gt_iff ]; lia.
Qed.

(** Subtraction of valid operands: the sign of the difference is the
    order of the operands. *)
Lemma sub_signed_gt x y :
  valid x = true -> valid y = true ->
  SFcompare x y = Some Gt -> signed false (sub x y).
Proof.
  intros Hx Hy Hc.
  destruct x as [sx | sx | | sx mx ex], y as [sy | sy | | sy my ey];
    try discriminate Hc;
    try (destruct sx, sy; try discriminate Hc; split; reflexivity);
    try (destruct sx; try discriminate Hc; split; reflexivity);
    try (destruct sy; try discriminate Hc; split; reflexivity).
  unfold valid in Hx, Hy. simpl in Hx, Hy.
  rewrite (compare_aligned sx mx ex sy my ey Hx Hy) in Hc. injection Hc as Hc.
  unfold sub, SFsub. fold (aligned sx mx ex (Z.min ex ey)).
  fold (aligned sy my ey (Z.min ex ey)).
  apply Z.compare_gt_iff in Hc.
  destruct (aligned sx mx ex (Z.min ex ey) - aligned sy my ey (Z.min ex ey))
    as [ | p | p ] eqn:Hd; try lia.
  apply binary_round_signed.
Qed.

(** Swapping the operands of a difference of distinct valid values negates
    it. *)
Lemma sub_antisym x y :
  valid x = true -> valid y = true ->
  ltb x y = true -> sub y x = SFopp (sub x y).
Proof.
  intros Hx Hy. unfold ltb, SFltb.
  destruct (SFcompare x y) as [[ | | ] | ] eqn:Hc; try discriminate. intros _.
  destruct x as [sx | sx | | sx mx ex], y as [sy | sy | | sy my ey];
    try discriminate Hc;
    try (destruct sx, sy; try discriminate Hc; reflexivity);
    try (destruct sx; try discriminate Hc; reflexivity);
    try (destruct sy; try discriminate Hc; reflexivity).
  unfold valid in Hx, Hy. simpl in Hx, Hy.
  rewrite (compare_aligned sx mx ex sy my ey Hx Hy) in Hc. injection Hc as Hc.
  rewrite Z.compare_lt_iff in Hc.
  unfold sub, SFsub. rewrite (Z.min_comm ey ex).
  fold (aligned sx mx ex (Z.min ex ey)). fold (aligned sy my ey (Z.min ex ey)).
  replace (aligned sy my ey (Z.min ex ey) - aligned sx mx ex (Z.min ex ey))
    with (- (aligned sx mx ex (Z.min ex ey) - aligned sy my ey (Z.min ex ey)))
    by lia.
  apply binary_normalize_opp. lia.
Qed.

(** A valid finite value is below the image of the infinities. *)
Lemma finite_ord_bounds m e :
  bounded prec emax m e = true ->
  0 < Zpos m * 2 ^ (e + 1074) < 2 ^ 3000.
Proof.
  intros H. pose proof (bounded_canonical m e H) as (He & Hd & _).
  unfold bounded, prec, emax in H. apply andb_prop in H. destruct H as [_ H].
  apply Z.leb_le in H.
  pose proof (digits2_pos_bounds m) as [_ Hm].
  assert (H1 : 2 ^ Zpos (digits2_pos m) <= 2 ^ 53)
    by (apply Z.pow_le_mono_r; lia).
  assert (H2 : 2 ^ (e + 1074) <= 2 ^ 2045) by (apply Z.pow_le_mono_r; lia).
  assert (H3 : 0 < 2 ^ (e + 1074)) by (apply Z.pow_pos_nonneg; lia).
  assert (H4 : 2 ^ 53 * 2 ^ 2045 <= 2 ^ 3000).
  { rewrite <- Z.pow_add_r by lia. apply Z.pow_le_mono_r; lia. }
  split; [ lia | ].
  apply Z.lt_le_trans with (2 ^ 53 * 2 ^ 2045); [ | exact H4 ].
  apply Z.lt_le_trans with (2 ^ 53 * 2 ^ (e + 1074)).
  - apply Z.mul_lt_mono_pos_r; lia.
  - apply Z.mul_le_mono_nonneg_l; [ apply Z.pow_nonneg | ]; lia.
Qed.

Lemma aligned_ord s m e e' :
  -1074 <= e' <= e ->
  cond_Zopp s (Zpos m * 2 ^ (e + 1074))
  = aligned s m e e' * 2 ^ (e' + 1074).
Proof.
  intros H. unfold aligned. rewrite shl_align_value by lia.
  replace (e + 1074) with ((e - e') + (e' + 1074)) by lia.
  rewrite Z.pow_add_r by lia.
  destruct s; unfold cond_Zopp; lia.
Qed.

Ltac by_sign :=
  unfold SFcompare, ord; cbv beta iota; f_equal;
  repeat match goal with s : bool |- _ => destruct s end;
  unfold cond_Zopp; cbv beta iota; symmetry;
  first [ rewrite Z.compare_lt_iff | rewrite Z.compare_gt_iff ]; lia.

(** Comparison of valid values that are not NaN is the comparison of their
    images under [ord]. *)
Lemma compare_ord x y :
  valid x = true -> valid y = true ->
  is_nan x = false -> is_nan y = false ->
  SFcompare x y = Some (ord x ?= ord y).
Proof.
  intros Hx Hy Hnx Hny.
  destruct x as [sx | sx | | sx mx ex], y as [sy | sy | | sy my ey];
    try discriminate Hnx; try discriminate Hny;
    unfold valid in Hx, Hy; simpl in Hx, Hy.
  - reflexivity.
  - destruct sy; reflexivity.
  - pose proof (finite_ord_bounds my ey Hy). by_sign.
  - destruct sx; reflexivity.
  - destruct sx, sy; reflexivity.
  - pose proof (finite_ord_bounds my ey Hy).
    assert (0 < 2 ^ 3000) by (apply Z.pow_pos_nonneg; lia).
    by_sign.
  - pose proof (finite_ord_bounds mx ex Hx). by_sign.
  - pose proof (finite_ord_bounds mx ex Hx).
    assert (0 < 2 ^ 3000) by (apply Z.pow_pos_nonneg; lia).
    by_sign.
  - rewrite (compare_aligned sx mx ex sy my ey Hx Hy). f_equal.
    pose proof (bounded_canonical mx ex Hx) as (Hex & _).
    pose proof (bounded_canonical my ey Hy) as (Hey & _).
    unfold ord.
    rewrite (aligned_ord sx mx ex (Z.min ex ey)) by lia.
    rewrite (aligned_ord sy my ey (Z.min ex ey)) by lia.
    apply Zmult_compare_compat_r. apply Z.lt_gt, Z.pow_pos_nonneg; lia.
Qed.

Lemma ltb_ord x y :
  valid x = true -> valid y = true ->
  ltb x y = true -> ord x < ord y /\ is_nan x = false /\ is_nan y = false.
Proof.
  intros Hx Hy H. unfold ltb, SFltb in H.
  assert (Hn : is_nan x = false /\ is_nan y = false).
  { destruct x, y; try discriminate H; split; reflexivity. }
  destruct Hn as [Hnx Hny].
  rewrite (compare_ord x y Hx Hy Hnx Hny) in H.
  destruct (ord x ?= ord y) eqn:Hc; try discriminate H.
  rewrite Z.compare_lt_iff in Hc. auto.
Qed.

Lemma ltb_trans x y z :
  valid x = true -> valid y = true -> valid z = true ->
  ltb x y = true -> ltb y z = true -> ltb x z = true.
Proof.
  intros Hx Hy Hz Hxy Hyz.
  destruct (ltb_ord x y Hx Hy Hxy) as (H1 & Hnx & _).
  destruct (ltb_ord y z Hy Hz Hyz) as (H2 & _ & Hnz).
  unfold ltb, SFltb. rewrite (compare_ord x z Hx Hz Hnx Hnz).
  assert (Hc : (ord x ?= ord z) = Lt) by (apply Z.compare_lt_iff; lia).
  rewrite Hc. reflexivity.
Qed.

(** ** What the program's expressions need *)

Lemma compare_gt_of_ltb x y :
  valid x = true -> valid y = true ->
  ltb y x = true -> SFcompare x y = Some Gt.
Proof.
  intros Hx Hy H.
  destruct (ltb_ord y x Hy Hx H) as (Hlt & Hny & Hnx).
  rewrite (compare_ord x y Hx Hy Hnx Hny). f_equal.
  rewrite Z.compare_gt_iff. exact Hlt.
Qed.

(** The sign of a difference of valid operands is their order. *)
Lemma sub_nonneg_of_ltb x y :
  valid x = true -> valid y = true ->
  ltb y x = true -> signed false (sub x y).
Proof.
  intros Hx Hy H. apply sub_signed_gt; auto using compare_gt_of_ltb.
Qed.

Lemma signed_opp s x : signed s x -> signed (negb s) (SFopp x).
Proof.
  intros [Hn Hs]. destruct x; try discriminate Hn; simpl in Hs; subst;
    split; reflexivity.
Qed.

Lemma div_opp_l x y : div (SFopp x) y = SFopp (div x y).
Proof.
  destruct x as [sx | sx | | sx mx ex], y as [sy | sy | | sy my ey];
    try reflexivity;
    try (destruct sx, sy; reflexivity).
  unfold div, SFdiv. cbn [SFopp].
  destruct (SFdiv_core_binary prec emax (Z.pos mx) ex (Z.pos my) ey)
    as [[mz ez] lz].
  rewrite <- binary_round_aux_opp. f_equal. destruct sx, sy; reflexivity.
Qed.

Lemma mul_opp_l x y : mul (SFopp x) y = SFopp (mul x y).
Proof.
  destruct x as [sx | sx | | sx mx ex], y as [sy | sy | | sy my ey];
    try reflexivity;
    try (destruct sx, sy; reflexivity).
  unfold mul, SFmul. cbn [SFopp].
  rewrite <- binary_round_aux_opp. f_equal. destruct sx, sy; reflexivity.
Qed.

(** The two constants of the scaling [/ 100 * 8.34] as [float64] values. *)
Lemma const_100 : of_Q 100 = S754_finite false 7036874417766400 (-46).
Proof. reflexivity. Qed.

Lemma const_8_34 : of_Q 8.34 = S754_finite false 4695002611533742 (-49).
Proof. reflexivity. Qed.

(** [x / 100 * 8.34] keeps the sign of [x]. *)
Lemma scaled_signed s x :
  signed s x -> signed s (mul (div x (of_Q 100)) (of_Q 8.34)).
Proof.
  intros H. rewrite const_100, const_8_34.
  apply (div_signed s false x 7036874417766400 (-46)) in H.
  apply (mul_signed _ false _ 4695002611533742 (-49)) in H.
  rewrite !xorb_false_r in H. exact H.
Qed.

Lemma scaled_opp x :
  mul (div (SFopp x) (of_Q 100)) (of_Q 8.34)
  = SFopp (mul (div x (of_Q 100)) (of_Q 8.34)).
Proof. rewrite div_opp_l, mul_opp_l. reflexivity. Qed.

Lemma signed_false_nonneg x : signed false x -> leb (S754_zero false) x = true.
Proof.
  intros [Hn Hs]. destruct x as [s | s | | s m e]; try discriminate Hn;
    simpl in Hs; subst; reflexivity.
Qed.

Lemma signed_true_nonpos x : signed true x -> leb x (S754_zero false) = true.
Proof.
  intros [Hn Hs]. destruct x as [s | s | | s m e]; try discriminate Hn;
    simpl in Hs; subst; reflexivity.
Qed.

(** The Short form of the take-profit price is the Long form. *)
Lemma short_form_is_long_form r e s :
  valid e = true -> valid s = true -> ltb e s = true ->
  sub e (mul r (sub s e)) = add e (mul r (sub e s)).
Proof.
  intros He Hs H.
  rewrite sub_add_opp, <- mul_opp_r, (sub_antisym e s He Hs H).
  rewrite opp_involutive. reflexivity.
Qed.

End Float64Facts.

(** * Facts about the exact reading *)

Module ExactFacts.

Local Open Scope Qc_scope.

Lemma ltb_lt (x y : Qc) : Exact.less x y = true <-> x < y.
Proof.
  unfold Exact.less. rewrite negb_true_iff.
  split.
  - intros H. apply Qnot_le_lt. intros Hle.
    apply Qle_bool_iff in Hle. congruence.
  - intros H. destruct (Qle_bool y x) eqn:E; [ | reflexivity ].
    apply Qle_bool_iff in E. exfalso. apply (Qlt_not_le _ _ H E).
Qed.

Lemma sub_pos (x y : Qc) : y < x -> 0 < x - y.
Proof. intros H. apply Qclt_minus_iff in H. exact H. Qed.

Lemma mul_pos (x y : Qc) : 0 < x -> 0 < y -> 0 < x * y.
Proof.
  intros Hx Hy. rewrite <- (Qcmult_0_l y).
  apply Qcmult_lt_compat_r; assumption.
Qed.

(** [x / 100 * 8.34] is positive when [x] is. *)
Lemma scaled_pos (x : Qc) :
  0 < x -> 0 < fmul (fdiv x (const 100)) (const 8.34).
Proof.
  intros H. simpl. unfold Qcdiv.
  apply mul_pos; [ apply mul_pos; [ exact H | ] | ]; reflexivity.
Qed.

Lemma scaled_neg (x : Qc) :
  x < 0 -> fmul (fdiv x (const 100)) (const 8.34) < 0.
Proof.
  intros H.
  assert (Hp : 0 < - x).
  { apply Qclt_minus_iff in H. rewrite Qcplus_0_l in H. exact H. }
  apply scaled_pos in Hp.
  simpl in *. unfold Qcdiv in *.
  apply Qclt_minus_iff. rewrite Qcplus_0_l.
  replace (- (x * / Q2Qc 100 * Q2Qc 8.34))
    with (- x * / Q2Qc 100 * Q2Qc 8.34) by ring.
  exact Hp.
Qed.

End ExactFacts.

(** * The program, whatever the arithmetic *)

Module MiniFacts.

Section Program.

Context {A : Type} {arith : Arith A}.

Local Open Scope string_scope.

(** The six [Printf] calls of [main], in order, with the values of the
    six local variables. *)
Lemma main_lines (f : Mini.Flags A) :
  Mini.main f =
  [ {| Mini.format := "Stock> Number of stocks: %f\n";
       Mini.arg := Mini.numberOfStocks f |};
    {| Mini.format := "Stock> Take profit: %f\n";
       Mini.arg := Mini.takeProfit f |};
    {| Mini.format := "Mini> Leverage: %f\n";
       Mini.arg := Mini.paritet f |};
    {| Mini.format := "Mini> Stop: %f\n";
       Mini.arg := Mini.miniStop f |};
    {| Mini.format := "Mini> How many can I buy: %f\n";
       Mini.arg := Mini.howMany f |};
    {| Mini.format := "Mini> Profit: %f\n";
       Mini.arg := Mini.miniProfit f |} ].
Proof. reflexivity. Qed.

Lemma run_not_err (f : Mini.Flags A) (e : Engine.EngineError) :
  run f <> Engine.Err e.
Proof. unfold run. discriminate. Qed.

End Program.

End MiniFacts.

(** * The engine of the specification *)

Module EngineFacts.

Section Pipeline.

Context {A : Type} {arith : Arith A}.

Variables (d : Engine.Direction) (entry stop : A).

Lemma insertRanked_In (x y : Engine.Instrument A) :
  forall l, In y (Engine.insertRanked d entry stop x l) -> y = x \/ In y l.
Proof.
  induction l as [ | z l IH ]; simpl.
  - intros [H | []]. left. symmetry. exact H.
  - destruct (Engine.ranksBefore d entry stop z x); simpl.
    + intros [H | H]; [ right; left; exact H | ].
      destruct (IH H) as [Hx | Hl]; [ left; exact Hx | right; right; exact Hl ].
    + intros [H | H]; [ left; symmetry; exact H | right; exact H ].
Qed.

Lemma ranker_In (y : Engine.Instrument A) :
  forall l, In y (Engine.ranker d entry stop l) -> In y l.
Proof.
  induction l as [ | x l IH ]; simpl; [ tauto | ].
  intros H. apply insertRanked_In in H.
  destruct H as [H | H]; [ left; symmetry; exact H | right; exact (IH H) ].
Qed.

Lemma positionSizer_instrument (p : Engine.RiskProfile A) (takeProfit : A)
  (i : Engine.Instrument A) (s : Engine.Sizing A) :
  Engine.positionSizer p d takeProfit i = Engine.Ok s ->
  Engine.instrument s = i.
Proof.
  unfold Engine.positionSizer.
  destruct (Engine.unitsAffordable _ _ _ _); intros H; [ | discriminate H ].
  injection H as <-. reflexivity.
Qed.

Lemma sizeAll_In (p : Engine.RiskProfile A) (takeProfit : A)
  (s : Engine.Sizing A) :
  forall l, In s (Engine.sizeAll p d takeProfit l) ->
            In (Engine.instrument s) l.
Proof.
  unfold Engine.sizeAll. intros l H. apply in_flat_map in H.
  destruct H as (i & Hi & Hs).
  destruct (Engine.positionSizer p d takeProfit i) as [s' | e] eqn:Hp;
    [ | destruct Hs ].
  destruct Hs as [<- | []].
  rewrite (positionSizer_instrument _ _ _ _ Hp). exact Hi.
Qed.

Lemma firstn_subset {T : Type} (x : T) :
  forall n l, In x (firstn n l) -> In x l.
Proof.
  induction n as [ | n IH ]; intros [ | y l ]; simpl; try tauto.
  intros [H | H]; [ left; exact H | right; exact (IH l H) ].
Qed.

Lemma shortlistSelector_In (topN : nat) (l shortlist : list (Engine.Sizing A))
  (s : Engine.Sizing A) :
  Engine.shortlistSelector topN l = Engine.Ok shortlist ->
  In s shortlist -> In s l.
Proof.
  unfold Engine.shortlistSelector. destruct l as [ | x l ]; intros H;
    [ discriminate H | ].
  injection H as <-. apply firstn_subset.
Qed.

End Pipeline.

Section Select.

Context {A : Type} {arith : Arith A}.

(** Every row of a report comes from an instrument of the input that the
    filter kept for the direction of the report. *)
Lemma select_rows (p : Engine.RiskProfile A)
  (instruments : list (Engine.Instrument A)) (topN : nat)
  (report : Engine.ShortlistReport A) (s : Engine.Sizing A) :
  Engine.select p instruments topN = Engine.Ok report ->
  In s (Engine.rows report) ->
  In (Engine.instrument s) instruments
  /\ Engine.compatible (Engine.reportDirection report) (Engine.stopPrice p)
       (Engine.instrument s) = true.
Proof.
  unfold Engine.select.
  destruct (negb (Engine.positive (Engine.riskAmount p)));
    [ discriminate | ].
  destruct (Engine.takeProfitCalculator _ _ _) as [[takeProfit d] | e];
    [ | discriminate ].
  destruct (Engine.shortlistSelector _ _) as [shortlist | e] eqn:Hsel;
    [ | discriminate ].
  intros H. injection H as <-. simpl. intros Hin.
  apply (EngineFacts.shortlistSelector_In _ _ _ _ Hsel) in Hin.
  apply EngineFacts.sizeAll_In, EngineFacts.ranker_In in Hin.
  unfold Engine.instrumentFilter in Hin. apply filter_In in Hin.
  exact Hin.
Qed.

End Select.

End EngineFacts.

(** * The claims *)

Import Float64 Float64Facts.

Local Open Scope string_scope.

(** ** Division by zero in the two quotients *)

Lemma numberOfStocks_zero_denominator (f : Mini.Flags float64) :
  is_zero (Mini.price f - Mini.stop f)%go = true ->
  inf_or_nan (Mini.numberOfStocks f) = true.
Proof. intros H. apply Float64Facts.div_zero_denominator, H. Qed.

Lemma howMany_zero_denominator (f : Mini.Flags float64) :
  is_zero (Mini.derivatePrice f - Mini.miniStop f)%go = true ->
  inf_or_nan (Mini.howMany f) = true.
Proof. intros H. apply Float64Facts.div_zero_denominator, H. Qed.

Lemma div_equal_operands (r x y : float64) :
  eqb x y = true -> inf_or_nan (div r (sub x y)) = true.
Proof.
  intros H. apply Float64Facts.sub_equal in H.
  apply orb_prop in H. destruct H as [H | H].
  - apply Float64Facts.div_zero_denominator, H.
  - apply Float64Facts.div_nan_denominator, H.
Qed.

Lemma feqb_false_cases (x y : float64) :
  Engine.feqb x y = false -> ltb y x = true \/ ltb x y = true.
Proof.
  unfold Engine.feqb. simpl fltb.
  destruct (ltb x y), (ltb y x); simpl; intros H;
    try discriminate H; auto.
Qed.

(** ** C1: the take-profit price *)

(** C1, as stated, fails: with a reward:risk ratio of 3 the claim's formula
    gives 117, the program prints 111.5. *)
Lemma takeProfit_ratio_counterexample :
  let p : Engine.RiskProfile float64 := Scenario.profile 100.5 1000 95 3 in
  let i : Engine.Instrument float64 :=
    Scenario.instrument "MINI L" Engine.Long 90 8.34 10 in
  Engine.feqb (Engine.entryPrice p) (Engine.stopPrice p) = false
  /\ Engine.positive (Engine.rewardRiskRatio p) = true
  /\ Engine.takeProfitPrice (Engine.entryPrice p) (Engine.stopPrice p)
       (Engine.rewardRiskRatio p) = const 117
  /\ Mini.takeProfit (invocation p i) = const 111.5
  /\ Mini.takeProfit (invocation p i)
     <> Engine.takeProfitPrice (Engine.entryPrice p) (Engine.stopPrice p)
          (Engine.rewardRiskRatio p).
Proof.
  intros p i. repeat split. vm_compute. discriminate.
Qed.

(** C1, amended.  The take-profit price is
    [entryPrice + 2 * (entryPrice - stopPrice)]: the formula of the claim
    with the ratio fixed at 2, whatever ratio the plan carries; it is the
    Long form when [entryPrice > stopPrice] and the Short form when
    [entryPrice < stopPrice].  It is the second value printed. *)
Theorem takeProfit_fixed_ratio
  (p : Engine.RiskProfile float64) (i : Engine.Instrument float64) :
  valid (Engine.entryPrice p) = true ->
  valid (Engine.stopPrice p) = true ->
  Engine.feqb (Engine.entryPrice p) (Engine.stopPrice p) = false ->
  Mini.takeProfit (invocation p i)
  = Engine.takeProfitPrice (Engine.entryPrice p) (Engine.stopPrice p) (const 2)
  /\ Mini.takeProfit (invocation p i)
     = (Engine.entryPrice p
        + const 2 * (Engine.entryPrice p - Engine.stopPrice p))%go
  /\ nth_error (Mini.main (invocation p i)) 1
     = Some {| Mini.format := "Stock> Take profit: %f\n";
               Mini.arg := Mini.takeProfit (invocation p i) |}.
Proof.
  intros He Hs Hne. split; [ | split; reflexivity ].
  unfold Engine.takeProfitPrice, Engine.directionOf, Mini.takeProfit.
  simpl Mini.price. simpl Mini.stop.
  destruct (Engine.stopPrice p <? Engine.entryPrice p)%go eqn:Hlong;
    [ reflexivity | ].
  apply feqb_false_cases in Hne. destruct Hne as [H | H].
  - simpl fltb in Hlong. congruence.
  - symmetry. apply short_form_is_long_form; assumption.
Qed.

(** A Short plan: entry 95, stop 100.5, and a ratio of 7 that plays no
    part; the take-profit price is 95 - 2 * 5.5 = 84. *)
Lemma takeProfit_fixed_ratio_witness :
  let p : Engine.RiskProfile float64 := Scenario.profile 95 1000 100.5 7 in
  let i : Engine.Instrument float64 :=
    Scenario.instrument "MINI S" Engine.Short 106 8.34 10 in
  Engine.feqb (Engine.entryPrice p) (Engine.stopPrice p) = false
  /\ Engine.directionOf (Engine.entryPrice p) (Engine.stopPrice p)
     = Engine.Short
  /\ Mini.takeProfit (invocation p i)
     = Engine.takeProfitPrice (Engine.entryPrice p) (Engine.stopPrice p)
         (const 2)
  /\ Mini.takeProfit (invocation p i) = const 84.
Proof.
  intros p i.
  assert (Hne : Engine.feqb (Engine.entryPrice p) (Engine.stopPrice p) = false)
    by reflexivity.
  destruct (takeProfit_fixed_ratio p i eq_refl eq_refl Hne) as (H & _ & _).
  split; [ exact Hne | ]. split; [ reflexivity | ].
  split; [ exact H | reflexivity ].
Defined.

(** ** C2: equal entry and stop *)

(** C2, as stated, fails: with entry = stop = 95 the engine of the
    specification answers [InvalidParameters], the program prints its six
    lines, the first of them [+Inf]; with a ratio of -1 it prints the very
    lines it prints for any other ratio. *)
Lemma equal_entry_and_stop_counterexample :
  let p : Engine.RiskProfile float64 := Scenario.profile 95 1000 95 2 in
  let q : Engine.RiskProfile float64 := Scenario.profile 100.5 1000 95 (-1) in
  let i : Engine.Instrument float64 :=
    Scenario.instrument "MINI L" Engine.Long 90 8.34 10 in
  eqb (Engine.entryPrice p) (Engine.stopPrice p) = true
  /\ Engine.select p [i] 3 = Engine.Err Engine.InvalidParameters
  /\ run (invocation p i) <> Engine.Err Engine.InvalidParameters
  /\ Fmt.shown (invocation p i)
     = ["+Inf"; "95.000000"; "0.417000"; "0.417000"; "104.351456";
        "-1000.000000"]
  /\ Engine.positive (Engine.rewardRiskRatio q) = false
  /\ Engine.select q [i] 3 = Engine.Err Engine.InvalidParameters
  /\ run (invocation q i) <> Engine.Err Engine.InvalidParameters
  /\ Fmt.shown (invocation q i)
     = ["181.818182"; "111.500000"; "0.875700"; "0.417000"; "104.351456";
        "-856.401962"].
Proof.
  intros p q i. repeat split; try discriminate; vm_compute; reflexivity.
Qed.

(** C2, amended.  When [entryPrice] equals [stopPrice], or when the plan's
    ratio is not positive, the computation does not fail: it runs to its end
    and prints the six values.  With [entryPrice = stopPrice] the position
    size [risk / (price - stop)], printed first, is an infinity or NaN. *)
Theorem equal_entry_and_stop_completes
  (p : Engine.RiskProfile float64) (i : Engine.Instrument float64) :
  eqb (Engine.entryPrice p) (Engine.stopPrice p) = true
  \/ Engine.positive (Engine.rewardRiskRatio p) = false ->
  run (invocation p i) = Engine.Ok (Mini.main (invocation p i))
  /\ run (invocation p i) <> Engine.Err Engine.InvalidParameters
  /\ List.length (Mini.main (invocation p i)) = 6%nat
  /\ (eqb (Engine.entryPrice p) (Engine.stopPrice p) = true ->
      inf_or_nan (Mini.numberOfStocks (invocation p i)) = true
      /\ nth_error (Mini.main (invocation p i)) 0
         = Some {| Mini.format := "Stock> Number of stocks: %f\n";
                   Mini.arg := Mini.numberOfStocks (invocation p i) |}).
Proof.
  intros _. split; [ reflexivity | ]. split; [ discriminate | ].
  split; [ reflexivity | ].
  intros H. split; [ | reflexivity ].
  apply (div_equal_operands _ _ _ H).
Qed.

Lemma equal_entry_and_stop_completes_witness :
  let p : Engine.RiskProfile float64 := Scenario.profile 95 1000 95 2 in
  let i : Engine.Instrument float64 :=
    Scenario.instrument "MINI L" Engine.Long 90 8.34 10 in
  eqb (Engine.entryPrice p) (Engine.stopPrice p) = true
  /\ run (invocation p i) = Engine.Ok (Mini.main (invocation p i))
  /\ List.length (Mini.main (invocation p i)) = 6%nat
  /\ inf_or_nan (Mini.numberOfStocks (invocation p i)) = true.
Proof.
  intros p i.
  assert (He : eqb (Engine.entryPrice p) (Engine.stopPrice p) = true)
    by reflexivity.
  destruct (equal_entry_and_stop_completes p i (or_introl He))
    as (H1 & _ & H2 & H3).
  destruct (H3 He) as [H4 _].
  repeat split; assumption.
Defined.

(** ** C3: the units affordable *)

(** What the program and the engine have in common: where the engine's
    guarded division of a Long instrument with parity 8.34 succeeds, its
    quotient is the program's. *)
Lemma howMany_agrees_when_sized {A : Type} {arith : Arith A}
  (p : Engine.RiskProfile A) (i : Engine.Instrument A) (u : A) :
  Engine.unitsAffordable Engine.Long (Engine.riskAmount p)
    (Engine.stopPrice p) (Scenario.withProgramParity i) = Engine.Ok u ->
  Mini.howMany (invocation p i) = u.
Proof.
  unfold Engine.unitsAffordable.
  destruct (Engine.positive _); intros H; [ | discriminate H ].
  injection H as <-. reflexivity.
Qed.

(** C3, as stated, fails.  An instrument priced 0.25 below its implied stop
    0.417: the engine reports [DegenerateSizing], the program prints a
    negative count.  An instrument priced 0 with the knock-out on the
    stop: the denominator is zero, the program prints [+Inf]. *)
Lemma unguarded_division_counterexample :
  let p : Engine.RiskProfile float64 := Scenario.profile 100.5 1000 95 2 in
  let i : Engine.Instrument float64 :=
    Scenario.instrument "MINI L" Engine.Long 90 8.34 0.25 in
  let q : Engine.RiskProfile float64 := Scenario.profile 100.5 1000 90 2 in
  let j : Engine.Instrument float64 :=
    Scenario.instrument "MINI L" Engine.Long 90 8.34 0 in
  Engine.unitsAffordable Engine.Long (Engine.riskAmount p)
    (Engine.stopPrice p) i = Engine.Err Engine.DegenerateSizing
  /\ run (invocation p i) <> Engine.Err Engine.DegenerateSizing
  /\ Fmt.shown (invocation p i)
     = ["181.818182"; "111.500000"; "0.875700"; "0.417000"; "-5988.023952";
        "-9240.119760"]
  /\ is_zero (Engine.lastPrice j - Mini.miniStop (invocation q j))%go = true
  /\ Engine.unitsAffordable Engine.Long (Engine.riskAmount q)
       (Engine.stopPrice q) j = Engine.Err Engine.DegenerateSizing
  /\ run (invocation q j) <> Engine.Err Engine.DegenerateSizing
  /\ Fmt.shown (invocation q j)
     = ["95.238095"; "121.500000"; "0.875700"; "0.000000"; "+Inf"; "NaN"].
Proof.
  intros p i q j. repeat split; try discriminate; vm_compute; reflexivity.
Qed.

(** C3, amended.  The units affordable are
    [riskAmount / (lastPrice - stopInInstrumentTerms)] whatever the sign of
    the denominator (the instrument stop taken in the Long form with the
    constant 8.34): the division is not guarded and no [DegenerateSizing]
    is raised.  Where the guarded division of the engine succeeds the two
    agree; a zero denominator gives an infinity or NaN. *)
Theorem howMany_division_unguarded
  (p : Engine.RiskProfile float64) (i : Engine.Instrument float64) :
  Mini.howMany (invocation p i)
  = (Engine.riskAmount p
     / (Engine.lastPrice i
        - Engine.stopInInstrumentTerms Engine.Long (Engine.stopPrice p)
            (Scenario.withProgramParity i)))%go
  /\ nth_error (Mini.main (invocation p i)) 4
     = Some {| Mini.format := "Mini> How many can I buy: %f\n";
               Mini.arg := Mini.howMany (invocation p i) |}
  /\ (forall e, run (invocation p i) <> Engine.Err e)
  /\ (forall u,
        Engine.unitsAffordable Engine.Long (Engine.riskAmount p)
          (Engine.stopPrice p) (Scenario.withProgramParity i) = Engine.Ok u ->
        Mini.howMany (invocation p i) = u)
  /\ (is_zero (Engine.lastPrice i - Mini.miniStop (invocation p i))%go = true ->
      inf_or_nan (Mini.howMany (invocation p i)) = true).
Proof.
  split; [ reflexivity | ]. split; [ reflexivity | ].
  split; [ intros e; apply MiniFacts.run_not_err | ].
  split; [ intros u; apply howMany_agrees_when_sized | ].
  apply (howMany_zero_denominator (invocation p i)).
Qed.

Lemma howMany_division_unguarded_witness :
  let p : Engine.RiskProfile float64 := Scenario.profile 100.5 1000 95 2 in
  let i : Engine.Instrument float64 :=
    Scenario.instrument "MINI L" Engine.Long 90 8.34 10 in
  let q : Engine.RiskProfile float64 := Scenario.profile 100.5 1000 90 2 in
  let j : Engine.Instrument float64 :=
    Scenario.instrument "MINI L" Engine.Long 90 8.34 0 in
  (exists u,
     Engine.unitsAffordable Engine.Long (Engine.riskAmount p)
       (Engine.stopPrice p) (Scenario.withProgramParity i) = Engine.Ok u
     /\ Mini.howMany (invocation p i) = u)
  /\ is_zero (Engine.lastPrice j - Mini.miniStop (invocation q j))%go = true
  /\ inf_or_nan (Mini.howMany (invocation q j)) = true.
Proof.
  intros p i q j.
  destruct (howMany_division_unguarded p i) as (_ & _ & _ & Hu & _).
  destruct (howMany_division_unguarded q j) as (_ & _ & _ & _ & Hz).
  assert (Hj : is_zero (Engine.lastPrice j - Mini.miniStop (invocation q j))%go
               = true) by reflexivity.
  split; [ | split; [ exact Hj | exact (Hz Hj) ] ].
  exists (Mini.howMany (invocation p i)).
  split; [ reflexivity | ]. apply Hu. reflexivity.
Defined.

(** ** C4: the leverage *)

(** C4, as stated, fails.  A Short plan (entry 95, stop 100.5) and a Short
    instrument with its knock-out at 106, beyond the stop: it passes the
    filter, the leverage of the specification is 0.9174, the program prints
    -0.9174.  A Long instrument with parity 10: the specification gives
    1.05, the program 0.8757. *)
Lemma leverage_counterexample :
  let p : Engine.RiskProfile float64 := Scenario.profile 95 1000 100.5 2 in
  let i : Engine.Instrument float64 :=
    Scenario.instrument "MINI S" Engine.Short 106 8.34 10 in
  let q : Engine.RiskProfile float64 := Scenario.profile 100.5 1000 95 2 in
  let j : Engine.Instrument float64 :=
    Scenario.instrument "MINI L" Engine.Long 90 10 10 in
  Engine.directionOf (Engine.entryPrice p) (Engine.stopPrice p) = Engine.Short
  /\ Engine.compatible Engine.Short (Engine.stopPrice p) i = true
  /\ Fmt.format_f (Engine.leverage Engine.Short (Engine.entryPrice p) i)
     = "0.917400"
  /\ Fmt.format_f (Mini.paritet (invocation p i)) = "-0.917400"
  /\ ltb (Mini.paritet (invocation p i)) (const 0) = true
  /\ Mini.paritet (invocation p i)
     <> Engine.leverage Engine.Short (Engine.entryPrice p) i
  /\ Engine.compatible Engine.Long (Engine.stopPrice q) j = true
  /\ Fmt.format_f (Engine.leverage Engine.Long (Engine.entryPrice q) j)
     = "1.050000"
  /\ Fmt.format_f (Mini.paritet (invocation q j)) = "0.875700"
  /\ Mini.paritet (invocation q j)
     <> Engine.leverage Engine.Long (Engine.entryPrice q) j.
Proof.
  intros p i q j.
  repeat split; try (vm_compute; reflexivity); vm_compute; discriminate.
Qed.

Lemma compatible_long (stop : float64) (i : Engine.Instrument float64) :
  Engine.compatible Engine.Long stop i = true ->
  Engine.side i = Engine.Long /\ ltb (Engine.financeLevel i) stop = true.
Proof.
  unfold Engine.compatible. intros H. apply andb_prop in H.
  destruct H as [Hs Hl]. split; [ | exact Hl ].
  destruct (Engine.side i); [ reflexivity | discriminate Hs ].
Qed.

Lemma compatible_short (stop : float64) (i : Engine.Instrument float64) :
  Engine.compatible Engine.Short stop i = true ->
  Engine.side i = Engine.Short /\ ltb stop (Engine.financeLevel i) = true.
Proof.
  unfold Engine.compatible. intros H. apply andb_prop in H.
  destruct H as [Hs Hl]. split; [ | exact Hl ].
  destruct (Engine.side i); [ discriminate Hs | reflexivity ].
Qed.

(** The leverage on binary64. *)
Lemma paritet_float64
  (p : Engine.RiskProfile float64) (i : Engine.Instrument float64) :
  valid (Engine.entryPrice p) = true ->
  valid (Engine.stopPrice p) = true ->
  valid (Engine.financeLevel i) = true ->
  (ltb (Engine.stopPrice p) (Engine.entryPrice p) = true ->
   Engine.compatible Engine.Long (Engine.stopPrice p) i = true ->
   leb (const 0) (Mini.paritet (invocation p i)) = true)
  /\ (ltb (Engine.entryPrice p) (Engine.stopPrice p) = true ->
      Engine.compatible Engine.Short (Engine.stopPrice p) i = true ->
      Mini.paritet (invocation p i)
      = SFopp (Engine.leverage Engine.Short (Engine.entryPrice p)
                 (Scenario.withProgramParity i))
      /\ leb (Mini.paritet (invocation p i)) (const 0) = true).
Proof.
  intros He Hs Hf. split.
  - intros Hlong Hc. apply compatible_long in Hc. destruct Hc as [_ Hc].
    pose proof (Float64Facts.ltb_trans _ _ _ Hf Hs He Hc Hlong) as Hlt.
    apply signed_false_nonneg. apply scaled_signed.
    apply sub_nonneg_of_ltb; assumption.
  - intros Hshort Hc. apply compatible_short in Hc. destruct Hc as [_ Hc].
    pose proof (Float64Facts.ltb_trans _ _ _ He Hs Hf Hshort Hc) as Hlt.
    assert (Hopp : Mini.paritet (invocation p i)
                   = SFopp (Engine.leverage Engine.Short (Engine.entryPrice p)
                              (Scenario.withProgramParity i))).
    { unfold Mini.paritet, Engine.leverage. simpl.
      rewrite (Float64Facts.sub_antisym _ _ He Hf Hlt).
      change (sub (Engine.entryPrice p) (Engine.financeLevel i) / const 100
              * const 8.34)%go
        with (mul (div (sub (Engine.entryPrice p) (Engine.financeLevel i))
                     (of_Q 100)) (of_Q 8.34)).
      change (SFopp (sub (Engine.entryPrice p) (Engine.financeLevel i))
              / const 100 * const 8.34)%go
        with (mul (div (SFopp (sub (Engine.entryPrice p)
                                 (Engine.financeLevel i)))
                     (of_Q 100)) (of_Q 8.34)).
      rewrite scaled_opp, Float64Facts.opp_involutive. reflexivity. }
    split; [ exact Hopp | ].
    rewrite Hopp. apply signed_true_nonpos.
    apply (signed_opp false). apply scaled_signed.
    apply sub_nonneg_of_ltb; assumption.
Qed.

(** On binary64 the leverage of a Long instrument that passes the filter
    can be zero: with entry, stop and knock-out at 3, 2 and 1 times
    [2^-1074] the quotient by 100 underflows. *)
Lemma paritet_underflow :
  let tiny (n : positive) : float64 := S754_finite false n (-1074)%Z in
  let p : Engine.RiskProfile float64 :=
    {| Engine.entryPrice := tiny 3%positive;
       Engine.underlyingName := "ERIC B";
       Engine.riskAmount := const 1000;
       Engine.stopPrice := tiny 2%positive;
       Engine.rewardRiskRatio := const 2 |} in
  let i : Engine.Instrument float64 :=
    {| Engine.identifier := "MINI L";
       Engine.instrumentUnderlying := "ERIC B";
       Engine.side := Engine.Long;
       Engine.financeLevel := tiny 1%positive;
       Engine.parityOrMultiplier := const 8.34;
       Engine.lastPrice := const 10 |} in
  valid (tiny 3%positive) = true
  /\ valid (tiny 2%positive) = true
  /\ valid (tiny 1%positive) = true
  /\ Engine.directionOf (Engine.entryPrice p) (Engine.stopPrice p)
     = Engine.Long
  /\ Engine.compatible Engine.Long (Engine.stopPrice p) i = true
  /\ Mini.paritet (invocation p i) = S754_zero false.
Proof. intros tiny p i. repeat split. Qed.

(** The leverage in exact arithmetic. *)
Lemma paritet_exact (p : Engine.RiskProfile Qc) (i : Engine.Instrument Qc) :
  (Engine.directionOf (Engine.entryPrice p) (Engine.stopPrice p)
   = Engine.Long ->
   Engine.compatible Engine.Long (Engine.stopPrice p) i = true ->
   (0 < Mini.paritet (invocation p i))%Qc)
  /\ (Engine.directionOf (Engine.entryPrice p) (Engine.stopPrice p)
      = Engine.Short ->
      Engine.compatible Engine.Short (Engine.stopPrice p) i = true ->
      (Mini.paritet (invocation p i) < 0)%Qc).
Proof.
  unfold Engine.directionOf, Engine.compatible. simpl fltb. split.
  - destruct (Exact.less (Engine.stopPrice p) (Engine.entryPrice p)) eqn:Hd;
      [ intros _ | discriminate ].
    intros Hc. apply andb_prop in Hc. destruct Hc as [_ Hc].
    apply ExactFacts.ltb_lt in Hd, Hc.
    apply ExactFacts.scaled_pos, ExactFacts.sub_pos.
    exact (Qclt_trans _ _ _ Hc Hd).
  - destruct (Exact.less (Engine.stopPrice p) (Engine.entryPrice p)) eqn:Hd;
      [ discriminate | intros _ ].
    intros Hc. apply andb_prop in Hc. destruct Hc as [_ Hc].
    apply ExactFacts.ltb_lt in Hc.
    assert (Hle : (Engine.entryPrice p <= Engine.stopPrice p)%Qc).
    { apply Qcnot_lt_le. intros H. apply ExactFacts.ltb_lt in H. congruence. }
    pose proof (Qcle_lt_trans _ _ _ Hle Hc) as Hlt.
    apply ExactFacts.scaled_neg. simpl.
    apply Qclt_minus_iff in Hlt. apply Qclt_minus_iff.
    replace (0 + - (Engine.entryPrice p - Engine.financeLevel i))%Qc
      with (Engine.financeLevel i + - Engine.entryPrice p)%Qc by ring.
    exact Hlt.
Qed.

(** C4, amended.  For either direction the leverage is
    [(entryPrice - financeLevel) / 100 * 8.34], the Long form with the
    constant 8.34 in the place of the instrument's parity.  For a Long plan
    and an instrument that passes the filter it is positive in exact
    arithmetic and not negative on binary64; for a Short plan and an
    instrument that passes the filter it is negative in exact arithmetic
    and, on binary64, the opposite of the Short form, hence not positive. *)
Theorem paritet_long_form_fixed_parity :
  (forall (A : Type) (arith : Arith A)
          (p : Engine.RiskProfile A) (i : Engine.Instrument A),
      Mini.paritet (invocation p i)
      = Engine.leverage Engine.Long (Engine.entryPrice p)
          (Scenario.withProgramParity i)
      /\ nth_error (Mini.main (invocation p i)) 2
         = Some {| Mini.format := "Mini> Leverage: %f\n";
                   Mini.arg := Mini.paritet (invocation p i) |})
  /\ (forall (p : Engine.RiskProfile Qc) (i : Engine.Instrument Qc),
        (Engine.directionOf (Engine.entryPrice p) (Engine.stopPrice p)
         = Engine.Long ->
         Engine.compatible Engine.Long (Engine.stopPrice p) i = true ->
         (0 < Mini.paritet (invocation p i))%Qc)
        /\ (Engine.directionOf (Engine.entryPrice p) (Engine.stopPrice p)
            = Engine.Short ->
            Engine.compatible Engine.Short (Engine.stopPrice p) i = true ->
            (Mini.paritet (invocation p i) < 0)%Qc))
  /\ (forall (p : Engine.RiskProfile float64) (i : Engine.Instrument float64),
        valid (Engine.entryPrice p) = true ->
        valid (Engine.stopPrice p) = true ->
        valid (Engine.financeLevel i) = true ->
        (ltb (Engine.stopPrice p) (Engine.entryPrice p) = true ->
         Engine.compatible Engine.Long (Engine.stopPrice p) i = true ->
         leb (const 0) (Mini.paritet (invocation p i)) = true)
        /\ (ltb (Engine.entryPrice p) (Engine.stopPrice p) = true ->
            Engine.compatible Engine.Short (Engine.stopPrice p) i = true ->
            Mini.paritet (invocation p i)
            = SFopp (Engine.leverage Engine.Short (Engine.entryPrice p)
                       (Scenario.withProgramParity i))
            /\ leb (Mini.paritet (invocation p i)) (const 0) = true)).
Proof.
  split; [ intros A arith p i; split; reflexivity | ].
  split; [ exact paritet_exact | exact paritet_float64 ].
Qed.

(** The scenario of the specification, and a Short plan (entry 95, stop
    100.5) with a Short instrument knocked out at 106. *)
Lemma paritet_long_form_fixed_parity_witness :
  let p : Engine.RiskProfile float64 := Scenario.profile 100.5 1000 95 2 in
  let i : Engine.Instrument float64 :=
    Scenario.instrument "MINI L" Engine.Long 90 8.34 10 in
  let q : Engine.RiskProfile float64 := Scenario.profile 95 1000 100.5 2 in
  let j : Engine.Instrument float64 :=
    Scenario.instrument "MINI S" Engine.Short 106 8.34 10 in
  let p' : Engine.RiskProfile Qc := Scenario.profile 100.5 1000 95 2 in
  let i' : Engine.Instrument Qc :=
    Scenario.instrument "MINI L" Engine.Long 90 8.34 10 in
  Engine.compatible Engine.Long (Engine.stopPrice p) i = true
  /\ leb (const 0) (Mini.paritet (invocation p i)) = true
  /\ Engine.compatible Engine.Short (Engine.stopPrice q) j = true
  /\ leb (Mini.paritet (invocation q j)) (const 0) = true
  /\ Engine.compatible Engine.Long (Engine.stopPrice p') i' = true
  /\ (0 < Mini.paritet (invocation p' i'))%Qc.
Proof.
  intros p i q j p' i'.
  destruct paritet_long_form_fixed_parity as (_ & Hexact & Hfloat).
  destruct (Hfloat p i eq_refl eq_refl eq_refl) as (Hl & _).
  destruct (Hfloat q j eq_refl eq_refl eq_refl) as (_ & Hs).
  destruct (Hexact p' i') as (He & _).
  split; [ reflexivity | ]. split; [ exact (Hl eq_refl eq_refl) | ].
  split; [ reflexivity | ]. split; [ exact (proj2 (Hs eq_refl eq_refl)) | ].
  split; [ reflexivity | ]. exact (He eq_refl eq_refl).
Defined.

(** ** C5: the projected profit *)

(** C5, as stated, fails.  A Long instrument with parity 10: the sizing of
    the specification gives 105.263158 units and a profit of -826.315789,
    the program prints 104.351456 and -856.401962. *)
Lemma profit_parity_counterexample :
  let p : Engine.RiskProfile float64 := Scenario.profile 100.5 1000 95 2 in
  let i : Engine.Instrument float64 :=
    Scenario.instrument "MINI L" Engine.Long 90 10 10 in
  let takeProfit :=
    Engine.takeProfitPrice (Engine.entryPrice p) (Engine.stopPrice p)
      (Engine.rewardRiskRatio p) in
  exists units,
    Engine.unitsAffordable Engine.Long (Engine.riskAmount p)
      (Engine.stopPrice p) i = Engine.Ok units
    /\ Fmt.format_f units = "105.263158"
    /\ Fmt.format_f (Engine.projectedProfit Engine.Long takeProfit i units)
       = "-826.315789"
    /\ Fmt.format_f (Mini.miniProfit (invocation p i)) = "-856.401962"
    /\ Mini.miniProfit (invocation p i)
       <> Engine.projectedProfit Engine.Long takeProfit i units.
Proof.
  intros p i takeProfit.
  exists (S754_finite false 7407236229227789 (-46)).
  repeat split; try (vm_compute; reflexivity). vm_compute. discriminate.
Qed.

(** C5, amended.  For either direction the projected profit is
    [(takeProfitPrice - financeLevel) / 100 * 8.34 * units
     - lastPrice * units], the Long form with the constant 8.34 in the place
    of the instrument's parity, on the program's own take-profit price and
    units.  For a Long plan whose units the engine can size, these are the
    engine's take-profit price at ratio 2 and the engine's units. *)
Theorem miniProfit_long_form_fixed_parity {A : Type} {arith : Arith A}
  (p : Engine.RiskProfile A) (i : Engine.Instrument A) :
  Mini.miniProfit (invocation p i)
  = Engine.projectedProfit Engine.Long (Mini.takeProfit (invocation p i))
      (Scenario.withProgramParity i) (Mini.howMany (invocation p i))
  /\ nth_error (Mini.main (invocation p i)) 5
     = Some {| Mini.format := "Mini> Profit: %f\n";
               Mini.arg := Mini.miniProfit (invocation p i) |}
  /\ (forall units,
        Engine.directionOf (Engine.entryPrice p) (Engine.stopPrice p)
        = Engine.Long ->
        Engine.unitsAffordable Engine.Long (Engine.riskAmount p)
          (Engine.stopPrice p) (Scenario.withProgramParity i)
        = Engine.Ok units ->
        Mini.miniProfit (invocation p i)
        = Engine.projectedProfit Engine.Long
            (Engine.takeProfitPrice (Engine.entryPrice p) (Engine.stopPrice p)
               (const 2))
            (Scenario.withProgramParity i) units).
Proof.
  split; [ reflexivity | ]. split; [ reflexivity | ].
  intros units Hd Hu.
  apply howMany_agrees_when_sized in Hu. subst units.
  unfold Engine.takeProfitPrice. rewrite Hd. reflexivity.
Qed.

Lemma miniProfit_long_form_fixed_parity_witness :
  let p : Engine.RiskProfile float64 := Scenario.profile 100.5 1000 95 2 in
  let i : Engine.Instrument float64 :=
    Scenario.instrument "MINI L" Engine.Long 90 8.34 10 in
  Engine.directionOf (Engine.entryPrice p) (Engine.stopPrice p) = Engine.Long
  /\ (exists units,
        Engine.unitsAffordable Engine.Long (Engine.riskAmount p)
          (Engine.stopPrice p) (Scenario.withProgramParity i)
        = Engine.Ok units
        /\ Mini.miniProfit (invocation p i)
           = Engine.projectedProfit Engine.Long
               (Engine.takeProfitPrice (Engine.entryPrice p)
                  (Engine.stopPrice p) (const 2))
               (Scenario.withProgramParity i) units).
Proof.
  intros p i.
  destruct (miniProfit_long_form_fixed_parity p i) as (_ & _ & H).
  split; [ reflexivity | ].
  exists (Mini.howMany (invocation p i)).
  split; [ reflexivity | ]. apply H; reflexivity.
Defined.

(** ** C6: the concrete scenario *)

Lemma Qc_neq (x y : Qc) : Qeq_bool x y = false -> x <> y.
Proof.
  intros H E. subst y.
  assert (Ht : Qeq_bool x x = true) by (apply Qeq_bool_iff; reflexivity).
  congruence.
Qed.

(** C6, as stated, fails on its last two figures: in exact arithmetic the
    units are 1000/9.583, below 104.352, not 104.36; the profit is
    -8206.9/9.583, above -856.41, not -856.47.  The program prints
    104.351456 and -856.401962. *)
Lemma scenario_counterexample :
  Mini.howMany Scenario.scenarioExact <> const 104.36
  /\ Mini.miniProfit Scenario.scenarioExact <> const (-856.47)
  /\ Mini.howMany Scenario.scenarioFloat <> const 104.36
  /\ Mini.miniProfit Scenario.scenarioFloat <> const (-856.47)
  /\ nth_error (Fmt.shown Scenario.scenarioFloat) 4 = Some "104.351456"
  /\ nth_error (Fmt.shown Scenario.scenarioFloat) 5 = Some "-856.401962".
Proof.
  split; [ apply Qc_neq; reflexivity | ].
  split; [ apply Qc_neq; reflexivity | ].
  split; [ vm_compute; discriminate | ].
  split; [ vm_compute; discriminate | ].
  split; vm_compute; reflexivity.
Qed.

(** C6, amended.  For entry 100.50, stop 95, knock-out 90, last price 10 and
    risk 1000 the figures are, in exact arithmetic: take-profit 111.50,
    leverage 0.8757, instrument stop 0.417, units 1000/9.583 (104.3514...),
    profit -8206.9/9.583 (-856.4019...).  The program prints them with six
    decimals as 111.500000, 0.875700, 0.417000, 104.351456, -856.401962,
    after the position size in the underlying, 181.818182. *)
Theorem scenario_figures :
  Mini.takeProfit Scenario.scenarioExact = const 111.50
  /\ Mini.paritet Scenario.scenarioExact = const 0.8757
  /\ Mini.miniStop Scenario.scenarioExact = const 0.417
  /\ Mini.howMany Scenario.scenarioExact = (const 1000 / const 9.583)%go
  /\ Mini.miniProfit Scenario.scenarioExact = (const (-8206.9) / const 9.583)%go
  /\ (Q2Qc 104.3514 < Mini.howMany Scenario.scenarioExact < Q2Qc 104.3515)%Qc
  /\ (Q2Qc (-856.4020) < Mini.miniProfit Scenario.scenarioExact)%Qc
  /\ (Mini.miniProfit Scenario.scenarioExact < Q2Qc (-856.4019))%Qc
  /\ Fmt.text (Mini.main Scenario.scenarioFloat)
     = map (fun line => line ++ Fmt.newline)
         [ "Stock> Number of stocks: 181.818182";
           "Stock> Take profit: 111.500000";
           "Mini> Leverage: 0.875700";
           "Mini> Stop: 0.417000";
           "Mini> How many can I buy: 104.351456";
           "Mini> Profit: -856.401962" ].
Proof.
  repeat split; try (apply Qc_is_canon; vm_compute; reflexivity);
    vm_compute; reflexivity.
Qed.

(** ** C7: the output respects the filter *)

(** C7.  Every instrument of the engine's output is one of the input, of the
    side of the plan, with its knock-out strictly below the stop for a Long
    plan and strictly above it for a Short plan; an instrument that breaks
    the rule is in no row of the output. *)
Theorem select_respects_filter {A : Type} {arith : Arith A}
  (p : Engine.RiskProfile A) (instruments : list (Engine.Instrument A))
  (topN : nat) (report : Engine.ShortlistReport A) :
  Engine.select p instruments topN = Engine.Ok report ->
  (forall s, In s (Engine.rows report) ->
     In (Engine.instrument s) instruments
     /\ Engine.side (Engine.instrument s) = Engine.reportDirection report
     /\ match Engine.reportDirection report with
        | Engine.Long =>
            (Engine.financeLevel (Engine.instrument s) <? Engine.stopPrice p)%go
            = true
        | Engine.Short =>
            (Engine.stopPrice p <? Engine.financeLevel (Engine.instrument s))%go
            = true
        end)
  /\ (forall i,
        Engine.compatible (Engine.reportDirection report) (Engine.stopPrice p) i
        = false ->
        forall s, In s (Engine.rows report) -> Engine.instrument s <> i).
Proof.
  intros Hsel. split.
  - intros s Hin.
    destruct (EngineFacts.select_rows _ _ _ _ _ Hsel Hin) as [Hi Hc].
    split; [ exact Hi | ].
    unfold Engine.compatible in Hc. apply andb_prop in Hc.
    destruct Hc as [Hside Hlevel]. split.
    + destruct (Engine.side (Engine.instrument s)),
        (Engine.reportDirection report);
        try reflexivity; discriminate Hside.
    + destruct (Engine.reportDirection report); exact Hlevel.
  - intros i Hbad s Hin Heq. subst i.
    destruct (EngineFacts.select_rows _ _ _ _ _ Hsel Hin) as [_ Hc].
    congruence.
Qed.

(** Four candidates for the Long plan 100.5 / 95: knock-outs at 90 and 94
    pass, 96 is above the stop, the Short one is on the wrong side.  The
    report ranks 94 before 90. *)
Lemma select_respects_filter_witness :
  let p : Engine.RiskProfile float64 := Scenario.profile 100.5 1000 95 2 in
  let l : list (Engine.Instrument float64) :=
    [ Scenario.instrument "L90" Engine.Long 90 8.34 10;
      Scenario.instrument "L96" Engine.Long 96 8.34 10;
      Scenario.instrument "S106" Engine.Short 106 8.34 10;
      Scenario.instrument "L94" Engine.Long 94 8.34 10 ] in
  match Engine.select p l 3 with
  | Engine.Ok report =>
      map (fun s => Engine.identifier (Engine.instrument s))
        (Engine.rows report) = ["L94"; "L90"]
      /\ Engine.reportDirection report = Engine.Long
      /\ forall s, In s (Engine.rows report) ->
           Engine.side (Engine.instrument s) = Engine.Long
           /\ ltb (Engine.financeLevel (Engine.instrument s))
                (Engine.stopPrice p) = true
  | Engine.Err _ => False
  end.
Proof.
  intros p l.
  destruct (Engine.select p l 3) as [report | e] eqn:Hsel.
  - destruct (select_respects_filter p l 3 report Hsel) as [Hrows _].
    assert (Hd : Engine.reportDirection report = Engine.Long)
      by (vm_compute in Hsel; injection Hsel as <-; reflexivity).
    split; [ vm_compute in Hsel; injection Hsel as <-; reflexivity | ].
    split; [ exact Hd | ].
    intros s Hin. destruct (Hrows s Hin) as (_ & Hside & Hlevel).
    rewrite Hd in Hside, Hlevel. split; assumption.
  - vm_compute in Hsel. discriminate Hsel.
Defined.

(** ** C8: determinism *)



(** ** C9: no input is rejected *)

(** C9.  Whatever the five flags, [main] runs to its end and prints the six
    values, none is rejected; the two divisions are not guarded: a zero
    denominator (in particular [price = stop], or [derivatePrice] equal to
    the instrument stop just computed) gives an infinity or NaN. *)
Theorem main_never_rejects (f : Mini.Flags float64) :
  run f = Engine.Ok
    [ {| Mini.format := "Stock> Number of stocks: %f\n";
         Mini.arg := Mini.numberOfStocks f |};
      {| Mini.format := "Stock> Take profit: %f\n";
         Mini.arg := Mini.takeProfit f |};
      {| Mini.format := "Mini> Leverage: %f\n";
         Mini.arg := Mini.paritet f |};
      {| Mini.format := "Mini> Stop: %f\n";
         Mini.arg := Mini.miniStop f |};
      {| Mini.format := "Mini> How many can I buy: %f\n";
         Mini.arg := Mini.howMany f |};
      {| Mini.format := "Mini> Profit: %f\n";
         Mini.arg := Mini.miniProfit f |} ]
  /\ (forall e, run f <> Engine.Err e)
  /\ (is_zero (Mini.price f - Mini.stop f)%go = true ->
      inf_or_nan (Mini.numberOfStocks f) = true)
  /\ (is_zero (Mini.derivatePrice f - Mini.miniStop f)%go = true ->
      inf_or_nan (Mini.howMany f) = true)
  /\ (eqb (Mini.price f) (Mini.stop f) = true ->
      inf_or_nan (Mini.numberOfStocks f) = true)
  /\ (eqb (Mini.derivatePrice f) (Mini.miniStop f) = true ->
      inf_or_nan (Mini.howMany f) = true).
Proof.
  repeat split.
  - intros e. apply MiniFacts.run_not_err.
  - apply numberOfStocks_zero_denominator.
  - apply howMany_zero_denominator.
  - intros H. apply (div_equal_operands _ _ _ H).
  - intros H. apply (div_equal_operands _ _ _ H).
Qed.

(** The command line without any flag: every flag is [0], both
    denominators are zero, both quotients are NaN. *)
Lemma main_never_rejects_witness :
  let f : Mini.Flags float64 := Scenario.flags 0 0 0 0 0 in
  is_zero (Mini.price f - Mini.stop f)%go = true
  /\ eqb (Mini.derivatePrice f) (Mini.miniStop f) = true
  /\ List.length (Mini.main f) = 6%nat
  /\ is_nan (Mini.numberOfStocks f) = true
  /\ inf_or_nan (Mini.numberOfStocks f) = true
  /\ inf_or_nan (Mini.howMany f) = true.
Proof.
  intros f.
  destruct (main_never_rejects f) as (_ & _ & H1 & _ & _ & H2).
  assert (Hz : is_zero (Mini.price f - Mini.stop f)%go = true) by reflexivity.
  assert (He : eqb (Mini.derivatePrice f) (Mini.miniStop f) = true)
    by reflexivity.
  pose proof (H1 Hz) as Hn. pose proof (H2 He) as Hh.
  repeat split; assumption.
Defined.

(** ** C10: the position size in the underlying *)

(** C10.  Before the figures of the instrument, [main] computes the
    position size in the underlying itself, [risk / (price - stop)], and
    prints it first; it depends on no flag of the instrument. *)
Theorem numberOfStocks_always_printed {A : Type} {arith : Arith A}
  (f : Mini.Flags A) :
  nth_error (Mini.main f) 0 =
    Some {| Mini.format := "Stock> Number of stocks: %f\n";
            Mini.arg := (Mini.risk f / (Mini.price f - Mini.stop f))%go |}
  /\ run f = Engine.Ok (Mini.main f)
  /\ List.length (Mini.main f) = 6%nat
  /\ (forall financeLevel' derivatePrice',
        nth_error
          (Mini.main {| Mini.price := Mini.price f;
                        Mini.risk := Mini.risk f;
                        Mini.stop := Mini.stop f;
                        Mini.financeLevel := financeLevel';
                        Mini.derivatePrice := derivatePrice' |}) 0
        = nth_error (Mini.main f) 0).
Proof. repeat split. Qed.

(** * Further properties of [main] *)

(** ** On binary64 *)

Module Float64Program.

Local Open Scope Z_scope.

(** NaN is absorbing for the four operations. *)
Lemma add_nan x y : is_nan x || is_nan y = true -> is_nan (add x y) = true.
Proof. destruct x, y; try discriminate; reflexivity. Qed.

Lemma sub_nan x y : is_nan x || is_nan y = true -> is_nan (sub x y) = true.
Proof. destruct x, y; try discriminate; reflexivity. Qed.

Lemma mul_nan x y : is_nan x || is_nan y = true -> is_nan (mul x y) = true.
Proof. destruct x, y; try discriminate; reflexivity. Qed.

Lemma div_nan x y : is_nan x || is_nan y = true -> is_nan (div x y) = true.
Proof. destruct x, y; try discriminate; reflexivity. Qed.

Lemma nan_l x y : is_nan x = true -> is_nan x || is_nan y = true.
Proof. intros ->. reflexivity. Qed.

Lemma nan_r x y : is_nan y = true -> is_nan x || is_nan y = true.
Proof. intros ->. apply orb_true_r. Qed.

Ltac nan_step :=
  first [ assumption
        | apply add_nan | apply sub_nan | apply mul_nan | apply div_nan ];
  first [ apply nan_l; nan_step | apply nan_r; nan_step ].

Ltac nan_through :=
  unfold Mini.miniProfit, Mini.howMany, Mini.miniStop, Mini.paritet,
    Mini.takeProfit, Mini.numberOfStocks;
  cbn [fadd fsub fmul fdiv Float64_Arith];
  nan_step.

(** A finite numerator over a denominator of known sign. *)
Lemma div_finite_signed sx mx ex sy y :
  signed sy y -> signed (xorb sx sy) (div (S754_finite sx mx ex) y).
Proof.
  intros [Hn Hs]. destruct y as [s | s | | s my ey]; try discriminate Hn;
    simpl in Hs; subst; try (split; reflexivity).
  apply (div_signed sx sy (S754_finite sx mx ex) my ey). split; reflexivity.
Qed.

Lemma div_opp_r x y : div x (SFopp y) = SFopp (div x y).
Proof.
  destruct x as [sx | sx | | sx mx ex], y as [sy | sy | | sy my ey];
    try reflexivity;
    try (destruct sx, sy; reflexivity).
  unfold div, SFdiv. cbn [SFopp].
  destruct (SFdiv_core_binary prec emax (Z.pos mx) ex (Z.pos my) ey)
    as [[mz ez] lz].
  rewrite <- binary_round_aux_opp. f_equal. destruct sx, sy; reflexivity.
Qed.

(** The difference of valid operands in the other order. *)
Lemma sub_nonpos_of_ltb x y :
  valid x = true -> valid y = true ->
  ltb x y = true -> signed true (sub x y).
Proof.
  intros Hx Hy H.
  rewrite <- (opp_involutive (sub x y)), <- (sub_antisym x y Hx Hy H).
  apply (signed_opp false). apply sub_nonneg_of_ltb; assumption.
Qed.

Lemma sub_self_finite s m e :
  sub (S754_finite s m e) (S754_finite s m e) = S754_zero false.
Proof.
  unfold sub, SFsub. rewrite shl_align_same. simpl fst.
  rewrite Z.sub_diag. reflexivity.
Qed.

Lemma eqb_finite_eq s m e y :
  eqb (S754_finite s m e) y = true -> y = S754_finite s m e.
Proof.
  unfold eqb, SFeqb.
  destruct (SFcompare (S754_finite s m e) y) as [[ | | ] | ] eqn:Hc;
    try discriminate.
  intros _. destruct y as [sy | sy | | sy my ey];
    try discriminate Hc;
    try (destruct s; discriminate Hc);
    try (destruct s, sy; discriminate Hc).
  apply compare_eq_finite in Hc. destruct Hc as (-> & -> & ->). reflexivity.
Qed.

End Float64Program.

Import Float64Program.

(** X8.  A flag that is NaN makes NaN every figure computed from it: [risk]
    the two sizes and the profit; [price] every figure but the instrument
    stop and the units; [stop] every figure but the leverage;
    [financeLevel] the four figures of the instrument; [derivatePrice] the
    units and the profit. *)
Theorem nan_flag_spreads (f : Mini.Flags float64) :
  (is_nan (Mini.risk f) = true ->
   is_nan (Mini.numberOfStocks f) = true
   /\ is_nan (Mini.howMany f) = true
   /\ is_nan (Mini.miniProfit f) = true)
  /\ (is_nan (Mini.price f) = true ->
      is_nan (Mini.numberOfStocks f) = true
      /\ is_nan (Mini.takeProfit f) = true
      /\ is_nan (Mini.paritet f) = true
      /\ is_nan (Mini.miniProfit f) = true)
  /\ (is_nan (Mini.stop f) = true ->
      is_nan (Mini.numberOfStocks f) = true
      /\ is_nan (Mini.takeProfit f) = true
      /\ is_nan (Mini.miniStop f) = true
      /\ is_nan (Mini.howMany f) = true
      /\ is_nan (Mini.miniProfit f) = true)
  /\ (is_nan (Mini.financeLevel f) = true ->
      is_nan (Mini.paritet f) = true
      /\ is_nan (Mini.miniStop f) = true
      /\ is_nan (Mini.howMany f) = true
      /\ is_nan (Mini.miniProfit f) = true)
  /\ (is_nan (Mini.derivatePrice f) = true ->
      is_nan (Mini.howMany f) = true
      /\ is_nan (Mini.miniProfit f) = true).
Proof.
  repeat split; nan_through.
Qed.

Lemma nan_flag_spreads_witness :
  let f : Mini.Flags float64 :=
    Derived.withRisk S754_nan Scenario.scenarioFloat in
  is_nan (Mini.risk f) = true
  /\ is_nan (Mini.numberOfStocks f) = true
  /\ is_nan (Mini.howMany f) = true
  /\ is_nan (Mini.miniProfit f) = true
  /\ Fmt.shown f
     = ["NaN"; "111.500000"; "0.875700"; "0.417000"; "NaN"; "NaN"].
Proof.
  intros f.
  destruct (nan_flag_spreads f) as (H & _).
  destruct (H eq_refl) as (H1 & H2 & H3).
  repeat split; assumption.
Defined.

(** X9.  For a finite positive [risk] and well-formed [price] and [stop],
    the stock position size is not NaN and carries the sign of
    [price - stop]: sign bit clear when the stop is below the price, sign
    bit set (a count printed with a minus sign) when the stop is above. *)
Theorem numberOfStocks_sign (f : Mini.Flags float64) :
  valid (Mini.price f) = true ->
  valid (Mini.stop f) = true ->
  Derived.finite_positive (Mini.risk f) = true ->
  (ltb (Mini.stop f) (Mini.price f) = true ->
   signed false (Mini.numberOfStocks f))
  /\ (ltb (Mini.price f) (Mini.stop f) = true ->
      signed true (Mini.numberOfStocks f)).
Proof.
  intros Hp Hs Hr. unfold Mini.numberOfStocks.
  cbn [fsub fdiv Float64_Arith].
  destruct (Mini.risk f) as [ | | | [ | ] mr er ]; try discriminate Hr.
  split; intros H.
  - apply (div_finite_signed false mr er false).
    apply sub_nonneg_of_ltb; assumption.
  - apply (div_finite_signed false mr er true).
    apply sub_nonpos_of_ltb; assumption.
Qed.

(** A Short plan, entry 95 and stop 100.5: the count is negative. *)
Lemma numberOfStocks_sign_witness :
  let f : Mini.Flags float64 := Scenario.flags 95 1000 100.5 106 10 in
  ltb (Mini.price f) (Mini.stop f) = true
  /\ signed true (Mini.numberOfStocks f)
  /\ Fmt.format_f (Mini.numberOfStocks f) = "-181.818182".
Proof.
  intros f.
  destruct (numberOfStocks_sign f eq_refl eq_refl eq_refl) as (_ & H).
  split; [ reflexivity | ]. split; [ exact (H eq_refl) | reflexivity ].
Defined.

(** X10.  For well-formed [stop] and [financeLevel], the instrument stop is
    not NaN and carries the sign of [stop - financeLevel]: not negative
    when the knock-out is below the stop, not positive when it is above. *)
Theorem miniStop_sign (f : Mini.Flags float64) :
  valid (Mini.stop f) = true ->
  valid (Mini.financeLevel f) = true ->
  (ltb (Mini.financeLevel f) (Mini.stop f) = true ->
   signed false (Mini.miniStop f)
   /\ leb (const 0) (Mini.miniStop f) = true)
  /\ (ltb (Mini.stop f) (Mini.financeLevel f) = true ->
      signed true (Mini.miniStop f)
      /\ leb (Mini.miniStop f) (const 0) = true).
Proof.
  intros Hs Hf. split; intros H.
  - assert (Hm : signed false (Mini.miniStop f)).
    { apply scaled_signed. apply sub_nonneg_of_ltb; assumption. }
    split; [ exact Hm | apply signed_false_nonneg, Hm ].
  - assert (Hm : signed true (Mini.miniStop f)).
    { apply scaled_signed. apply sub_nonpos_of_ltb; assumption. }
    split; [ exact Hm | apply signed_true_nonpos, Hm ].
Qed.

Lemma miniStop_sign_witness :
  let f : Mini.Flags float64 := Scenario.flags 95 1000 100.5 106 10 in
  ltb (Mini.stop f) (Mini.financeLevel f) = true
  /\ leb (Mini.miniStop f) (const 0) = true
  /\ Fmt.format_f (Mini.miniStop f) = "-0.458700".
Proof.
  intros f.
  destruct (miniStop_sign f eq_refl eq_refl) as (_ & H).
  split; [ reflexivity | ].
  split; [ exact (proj2 (H eq_refl)) | reflexivity ].
Defined.

(** X11.  When [price] equals [stop] and is finite and not zero, the
    take-profit price is the price itself and the leverage figure is the
    instrument stop. *)
Theorem equal_price_and_stop_levels (f : Mini.Flags float64) :
  Derived.finite_nonzero (Mini.price f) = true ->
  eqb (Mini.price f) (Mini.stop f) = true ->
  Mini.takeProfit f = Mini.price f
  /\ Mini.paritet f = Mini.miniStop f.
Proof.
  intros Hf He. unfold Mini.takeProfit, Mini.paritet, Mini.miniStop.
  destruct (Mini.price f) as [ | | | s m e ]; try discriminate Hf.
  rewrite (eqb_finite_eq s m e _ He).
  split; [ | reflexivity ].
  cbn [fadd fsub fmul Float64_Arith]. rewrite sub_self_finite. reflexivity.
Qed.

Lemma equal_price_and_stop_levels_witness :
  let f : Mini.Flags float64 := Scenario.flags 95 1000 95 90 10 in
  eqb (Mini.price f) (Mini.stop f) = true
  /\ Mini.takeProfit f = const 95
  /\ Mini.paritet f = Mini.miniStop f.
Proof.
  intros f.
  destruct (equal_price_and_stop_levels f eq_refl eq_refl) as (H1 & H2).
  split; [ reflexivity | ]. split; [ exact H1 | exact H2 ].
Defined.

(** X12.  For well-formed and distinct [price] and [stop], exchanging them
    gives exactly the opposite stock position size. *)
Theorem numberOfStocks_swapped (f : Mini.Flags float64) :
  valid (Mini.price f) = true ->
  valid (Mini.stop f) = true ->
  ltb (Mini.stop f) (Mini.price f) = true
  \/ ltb (Mini.price f) (Mini.stop f) = true ->
  Mini.numberOfStocks (Derived.swapped f) = SFopp (Mini.numberOfStocks f).
Proof.
  intros Hp Hs H. unfold Mini.numberOfStocks, Derived.swapped.
  cbn [fsub fdiv Float64_Arith Mini.price Mini.stop Mini.risk].
  destruct H as [H | H].
  - rewrite (sub_antisym _ _ Hs Hp H), div_opp_r, opp_involutive.
    reflexivity.
  - rewrite (sub_antisym _ _ Hp Hs H), div_opp_r. reflexivity.
Qed.

Lemma numberOfStocks_swapped_witness :
  let f : Mini.Flags float64 := Scenario.scenarioFloat in
  ltb (Mini.stop f) (Mini.price f) = true
  /\ Mini.numberOfStocks (Derived.swapped f) = SFopp (Mini.numberOfStocks f)
  /\ Fmt.format_f (Mini.numberOfStocks f) = "181.818182"
  /\ Fmt.format_f (Mini.numberOfStocks (Derived.swapped f)) = "-181.818182".
Proof.
  intros f.
  pose proof (numberOfStocks_swapped f eq_refl eq_refl (or_introl eq_refl))
    as H.
  split; [ reflexivity | ]. split; [ exact H | ]. split; reflexivity.
Defined.
